(** * Repository storage moves: the resource module of package gitlab

    A shallow embedding of [project_repository_storage_move.go] and the
    properties of its six methods.

    - Go's [int] is read as [Z].  The file does no arithmetic on its
      integers (they are only formatted), so no wrap-around occurs; every
      statement below holds for all of [Z], hence for the 64-bit range.
    - [*T] is [option loc]: [None] is the nil pointer, [Some l] the address
      of a heap cell.  A slice [[]*T] is [option (list (option loc))]:
      [None] is the nil slice, [Some []] the empty non-nil one.
    - [error] and [*Response] results are options: [None] is nil.
    - The client ([NewRequest], [Do]) is declared outside this file.  The
      methods are embedded over an arbitrary client (class [Client]); every
      call they make to it is recorded, with what it returned, in a trace. *)

From Stdlib Require Import ZArith String Ascii List Bool Lia.
From Stdlib Require Import DecimalString DecimalZ.
From stdpp Require Import base option list gmap strings.

Local Open Scope string_scope.
Local Open Scope list_scope.
Local Open Scope Z_scope.

(** ** Go library functions used by the file *)

Module Go.

(** [strconv.Itoa], which is what the verb [%d] prints for an [int]:
    a minus sign for negative numbers, then the decimal digits. *)
Definition Itoa (n : Z) : string := NilZero.string_of_int (Z.to_int n).

(** The inverse reading, [strconv.Atoi] on the strings [Itoa] produces. *)
Definition Atoi (s : string) : option Z :=
  match NilZero.int_of_string s with
  | Some d => Some (Z.of_int d)
  | None => None
  end.

(** What [fmt] appends when operands are left over. *)
Fixpoint extra_operands (args : list Z) : string :=
  match args with
  | [] => ""
  | [a] => "int=" +:+ Itoa a
  | a :: rest => "int=" +:+ Itoa a +:+ ", " +:+ extra_operands rest
  end.

(** [fmt.Sprintf] restricted to what this file uses: the format holds
    ordinary characters and the verb [%d], the operands are [int]s.
    A verb without operand prints [%!d(MISSING)], operands without verb
    are reported at the end, as [fmt] does. *)
Fixpoint Sprintf (format : string) (args : list Z) : string :=
  match format with
  | EmptyString =>
      match args with
      | [] => ""
      | _ => "%!(EXTRA " +:+ extra_operands args +:+ ")"
      end
  | String "%" (String "d" rest) =>
      match args with
      | a :: args' => Itoa a +:+ Sprintf rest args'
      | [] => "%!d(MISSING)" +:+ Sprintf rest []
      end
  | String c rest => String c (Sprintf rest args)
  end.

(** [http.MethodGet] and [http.MethodPost]. *)
Definition MethodGet : string := "GET".
Definition MethodPost : string := "POST".

End Go.

(** ** JSON texts, as Go's [encoding/json] reads them *)

Module JSON.

#[warnings="-register-all"]
Inductive value :=
| Null
| Bool (b : bool)
| Number (literal : string)
| Str (s : string)
| Array (items : list value)
| Object (members : list (string * value)).

Definition code (c : ascii) : N := N_of_ascii c.
Definition char (n : N) : ascii := ascii_of_N n.

(** The double quote. *)
Definition quote : ascii := char 34.

(** With ['] standing for the double quote: a way to write JSON texts. *)
Fixpoint dq (s : string) : string :=
  match s with
  | EmptyString => EmptyString
  | String c rest => String (if Ascii.eqb c "'" then quote else c) (dq rest)
  end.

Definition is_space (c : ascii) : bool :=
  let n := code c in
  ((n =? 32) || (n =? 9) || (n =? 10) || (n =? 13))%N.

Definition is_digit (c : ascii) : bool :=
  let n := code c in ((48 <=? n) && (n <=? 57))%N.

Fixpoint skip_space (s : string) : string :=
  match s with
  | String c rest => if is_space c then skip_space rest else s
  | EmptyString => s
  end.

(** The longest prefix made of digits, and what follows it. *)
Fixpoint span_digits (s : string) : string * string :=
  match s with
  | String c rest =>
      if is_digit c
      then let '(ds, out) := span_digits rest in (String c ds, out)
      else (EmptyString, s)
  | EmptyString => (EmptyString, s)
  end.

Definition some_digits (s : string) : option (string * string) :=
  let '(ds, out) := span_digits s in
  match ds with EmptyString => None | _ => Some (ds, out) end.

(** A number: an optional minus sign; then 0, or a non-zero digit and
    more digits; then optionally a dot and digits; then optionally an
    exponent: e or E, an optional sign, digits. *)
Definition number (s : string) : option (string * string) :=
  let '(sign, s1) :=
    match s with
    | String c rest => if Ascii.eqb c "-" then ("-", rest) else ("", s)
    | EmptyString => ("", s)
    end in
  '(int_part, s2) ←
    match s1 with
    | String c rest =>
        if Ascii.eqb c "0" then Some ("0", rest) else some_digits s1
    | EmptyString => None
    end;
  '(frac, s3) ←
    match s2 with
    | String c rest =>
        if Ascii.eqb c "."
        then '(ds, out) ← some_digits rest; Some (String c ds, out)
        else Some ("", s2)
    | EmptyString => Some ("", s2)
    end;
  '(exp, s4) ←
    match s3 with
    | String c rest =>
        if Ascii.eqb c "e" || Ascii.eqb c "E" then
          let '(esign, rest1) :=
            match rest with
            | String c1 rest' =>
                if Ascii.eqb c1 "+" || Ascii.eqb c1 "-"
                then (String c1 "", rest') else ("", rest)
            | EmptyString => ("", rest)
            end in
          '(ds, out) ← some_digits rest1;
          Some (String c (esign +:+ ds), out)
        else Some ("", s3)
    | EmptyString => Some ("", s3)
    end;
  Some (sign +:+ int_part +:+ frac +:+ exp, s4).

Definition hex_digit (c : ascii) : option N :=
  let n := code c in
  if ((48 <=? n) && (n <=? 57))%N then Some (n - 48)%N
  else if ((97 <=? n) && (n <=? 102))%N then Some (n - 87)%N
  else if ((65 <=? n) && (n <=? 70))%N then Some (n - 55)%N
  else None.

Definition hex4 (a b c d : ascii) : option N :=
  x ← hex_digit a; y ← hex_digit b; z ← hex_digit c; w ← hex_digit d;
  Some (((x * 16 + y) * 16 + z) * 16 + w)%N.

(** [utf8.EncodeRune] *)
Definition utf8 (r : N) : string :=
  (if r <? 128 then String (char r) ""
   else if r <? 2048 then
     String (char (192 + r / 64)) (String (char (128 + r mod 64)) "")
   else if r <? 65536 then
     String (char (224 + r / 4096))
       (String (char (128 + (r / 64) mod 64))
          (String (char (128 + r mod 64)) ""))
   else
     String (char (240 + r / 262144))
       (String (char (128 + (r / 4096) mod 64))
          (String (char (128 + (r / 64) mod 64))
             (String (char (128 + r mod 64)) ""))))%N.

Definition is_surrogate (r : N) : bool := ((55296 <=? r) && (r <? 57344))%N.

(** [utf16.DecodeRune]: the rune of a surrogate pair, [None] when the two
    halves do not form one. *)
Definition surrogate_pair (hi lo : N) : option N :=
  if ((55296 <=? hi) && (hi <? 56320) && (56320 <=? lo) && (lo <? 57344))%N
  then Some ((hi - 55296) * 1024 + (lo - 56320) + 65536)%N
  else None.

Definition replacement_char : N := 65533%N.

Definition simple_escape (c : ascii) : option ascii :=
  if Ascii.eqb c quote then Some quote
  else if Ascii.eqb c "\" then Some "\"%char
  else if Ascii.eqb c "/" then Some "/"%char
  else if Ascii.eqb c "b" then Some (char 8)
  else if Ascii.eqb c "f" then Some (char 12)
  else if Ascii.eqb c "n" then Some (char 10)
  else if Ascii.eqb c "r" then Some (char 13)
  else if Ascii.eqb c "t" then Some (char 9)
  else None.

(** The second half of a surrogate pair, when the text goes on with one. *)
Definition low_surrogate (hi : N) (s : string) : option (N * string) :=
  match s with
  | String b (String u (String h1 (String h2 (String h3 (String h4 out))))) =>
      if Ascii.eqb b "\" && Ascii.eqb u "u" then
        lo ← hex4 h1 h2 h3 h4;
        r ← surrogate_pair hi lo;
        Some (r, out)
      else None
  | _ => None
  end.

(** The inside of a string literal, after its opening quote: the decoded
    text and what follows the closing quote. *)
Fixpoint string_body (fuel : nat) (s : string) : option (string * string) :=
  match fuel with
  | O => None
  | S fuel' =>
  match s with
  | EmptyString => None
  | String c rest =>
      if Ascii.eqb c quote then Some ("", rest)
      else if Ascii.eqb c "\" then
        match rest with
        | EmptyString => None
        | String e rest1 =>
            if Ascii.eqb e "u" then
              match rest1 with
              | String h1 (String h2 (String h3 (String h4 rest2))) =>
                  r ← hex4 h1 h2 h3 h4;
                  let '(r', next) :=
                    if is_surrogate r then
                      match low_surrogate r rest2 with
                      | Some (r2, out) => (r2, out)
                      | None => (replacement_char, rest2)
                      end
                    else (r, rest2) in
                  '(str, out) ← string_body fuel' next;
                  Some (utf8 r' +:+ str, out)
              | _ => None
              end
            else
              ch ← simple_escape e;
              '(str, out) ← string_body fuel' rest1;
              Some (String ch str, out)
        end
      else if (code c <? 32)%N then None
      else
        '(str, out) ← string_body fuel' rest;
        Some (String c str, out)
  end
  end.

(** The rest of a keyword whose first letter has been read. *)
Definition keyword (tail s : string) : option string :=
  if String.prefix tail s
  then Some (String.substring (String.length tail)
               (String.length s - String.length tail) s)
  else None.

Fixpoint parse_value (fuel : nat) (s : string) : option (value * string) :=
  match fuel with
  | O => None
  | S fuel' =>
      match skip_space s with
      | EmptyString => None
      | String c rest =>
          if Ascii.eqb c "{" then
            match skip_space rest with
            | String c1 rest1 =>
                if Ascii.eqb c1 "}" then Some (Object [], rest1)
                else '(ms, out) ← parse_members fuel' rest;
                     Some (Object ms, out)
            | EmptyString => None
            end
          else if Ascii.eqb c "[" then
            match skip_space rest with
            | String c1 rest1 =>
                if Ascii.eqb c1 "]" then Some (Array [], rest1)
                else '(vs, out) ← parse_elements fuel' rest;
                     Some (Array vs, out)
            | EmptyString => None
            end
          else if Ascii.eqb c quote then
            '(str, out) ← string_body fuel' rest; Some (Str str, out)
          else if Ascii.eqb c "n" then
            out ← keyword "ull" rest; Some (Null, out)
          else if Ascii.eqb c "t" then
            out ← keyword "rue" rest; Some (Bool true, out)
          else if Ascii.eqb c "f" then
            out ← keyword "alse" rest; Some (Bool false, out)
          else
            '(lit, out) ← number (String c rest); Some (Number lit, out)
      end
  end
with parse_elements (fuel : nat) (s : string)
    : option (list value * string) :=
  match fuel with
  | O => None
  | S fuel' =>
      '(v, rest) ← parse_value fuel' s;
      match skip_space rest with
      | String c rest1 =>
          if Ascii.eqb c "," then
            '(vs, out) ← parse_elements fuel' rest1; Some (v :: vs, out)
          else if Ascii.eqb c "]" then Some ([v], rest1)
          else None
      | EmptyString => None
      end
  end
with parse_members (fuel : nat) (s : string)
    : option (list (string * value) * string) :=
  match fuel with
  | O => None
  | S fuel' =>
      match skip_space s with
      | String c rest =>
          if Ascii.eqb c quote then
            '(k, rest1) ← string_body fuel' rest;
            match skip_space rest1 with
            | String c1 rest2 =>
                if Ascii.eqb c1 ":" then
                  '(v, rest3) ← parse_value fuel' rest2;
                  match skip_space rest3 with
                  | String c2 rest4 =>
                      if Ascii.eqb c2 "," then
                        '(ms, out) ← parse_members fuel' rest4;
                        Some ((k, v) :: ms, out)
                      else if Ascii.eqb c2 "}" then Some ([(k, v)], rest4)
                      else None
                  | EmptyString => None
                  end
                else None
            | EmptyString => None
            end
          else None
      | EmptyString => None
      end
  end.

(** A whole text: one value, with blanks around it and nothing else. *)
Definition parse (text : string) : option value :=
  '(v, rest) ← parse_value (S (String.length text)) text;
  match skip_space rest with
  | EmptyString => Some v
  | _ => None
  end.

End JSON.

(** ** Data model *)

(** [time.Time] and its method [UnmarshalJSON] belong to Go's library.  The
    file only stores pointers to times, so the type is left abstract, and so
    is the reading of a timestamp: [Time_UnmarshalJSON v] is the time that
    the JSON value [v] denotes, when it denotes one.  [encoding/json] calls
    it on every value bound for a [*time.Time] except [null]. *)
Class GoTime := {
  Time : Type;
  Time_UnmarshalJSON : JSON.value → option Time
}.

Section Gitlab.

Context {T : GoTime}.

(** The anonymous struct of the field [Project] (lines 44-52). *)
Record ProjectSummary := {
  Project_ID : Z;
  Project_Description : string;
  Project_Name : string;
  Project_NameWithNamespace : string;
  Project_Path : string;
  Project_PathWithNamespace : string;
  Project_CreatedAt : option Time
}.

(** [ProjectRepositoryStorageMove] (lines 38-53). *)
Record ProjectRepositoryStorageMove := {
  ID : Z;
  CreatedAt : option Time;
  State : string;
  SourceStorageName : string;
  DestinationStorageName : string;
  Project : ProjectSummary
}.

(** The zero values, as [new] and [var] produce them. *)
Definition zero_ProjectSummary : ProjectSummary :=
  {| Project_ID := 0; Project_Description := ""; Project_Name := "";
     Project_NameWithNamespace := ""; Project_Path := "";
     Project_PathWithNamespace := ""; Project_CreatedAt := None |}.

Definition zero_ProjectRepositoryStorageMove : ProjectRepositoryStorageMove :=
  {| ID := 0; CreatedAt := None; State := ""; SourceStorageName := "";
     DestinationStorageName := ""; Project := zero_ProjectSummary |}.

(** Modelled from the spec: [ListOptions] is declared outside this file.
    Section 3 of the specification describes it as a pagination request
    made of a page number and/or a cursor, and a page size. *)
Record ListOptions := {
  Page : Z;
  Cursor : string;
  PerPage : Z
}.

(** [type RetrieveAllStorageMovesOptions ListOptions] (line 59). *)
Definition RetrieveAllStorageMovesOptions : Type := ListOptions.

End Gitlab.

(** *** Memory *)

Definition loc : Type := positive.

(** The heap of [ProjectRepositoryStorageMove] cells. *)
Abbreviation Heap := (gmap loc ProjectRepositoryStorageMove).

(** [[]*ProjectRepositoryStorageMove]. *)
Definition slice : Type := option (list (option loc)).

Section Service.

Context {T : GoTime}.

(** [new(ProjectRepositoryStorageMove)]: a cell that was not allocated
    before, holding the zero value. *)
Definition alloc (h : Heap) : loc * Heap :=
  let l := fresh (dom h) in (l, <[l := zero_ProjectRepositoryStorageMove]> h).

(** ** The client the methods talk to *)

(** [Client] stands for the [*Client] held by the service (line 31) and
    for the types its two methods mention.  [World] is everything the
    client can observe or change: its own fields, the network, the
    server.  [Do] receives its target as an [interface{}]; the file calls
    it at two dynamic types, hence the two fields: a
    [*ProjectRepositoryStorageMove], and the address of a local
    [[]*ProjectRepositoryStorageMove].  That variable is declared on the
    line before the call, so it is nil when [Do] receives its address;
    [client_Do_slice] returns, first, the value it holds after the call. *)
Class Client := {
  World : Type;
  Request : Type;
  Response : Type;
  error : Type;
  RequestOptionFunc : Type;
  client_NewRequest :
    string → string → option RetrieveAllStorageMovesOptions →
    list RequestOptionFunc → World → (Request * option error) * World;
  client_Do_struct :
    Request → loc → World → Heap →
    (option Response * option error) * (World * Heap);
  client_Do_slice :
    Request → World → Heap →
    (slice * (option Response * option error)) * (World * Heap)
}.

Context {C : Client}.

(** The target handed to [Do]. *)
Inductive target :=
| IntoStruct (p : loc)
| IntoSlice.

(** One call to the client, with its arguments and what it returned. *)
Inductive event :=
| EvNewRequest (method path : string)
    (opt : option RetrieveAllStorageMovesOptions)
    (options : list RequestOptionFunc) (ret : Request * option error)
| EvDo (req : Request) (v : target) (ret : option Response * option error).

Record state := { world : World; heap : Heap }.

(** A computation returns a value, a new state and the calls it made. *)
Definition Svc (A : Type) : Type := state → A * state * list event.

#[export] Instance Svc_ret : MRet Svc := λ A x st, (x, st, []).
#[export] Instance Svc_bind : MBind Svc := λ A B f m st,
  let '(a, st1, t1) := m st in
  let '(b, st2, t2) := f a st1 in
  (b, st2, t1 ++ t2).

Definition value {A} (r : A * state * list event) : A := r.1.1.
Definition final {A} (r : A * state * list event) : state := r.1.2.
Definition trace {A} (r : A * state * list event) : list event := r.2.

(** [s.client.NewRequest(method, u, opt, options)] *)
Definition NewRequest (method u : string)
    (opt : option RetrieveAllStorageMovesOptions)
    (options : list RequestOptionFunc) : Svc (Request * option error) :=
  λ st,
    let '(r, w) := client_NewRequest method u opt options (world st) in
    (r, {| world := w; heap := heap st |},
     [EvNewRequest method u opt options r]).

(** [s.client.Do(req, psm)] *)
Definition Do_struct (req : Request) (psm : loc)
    : Svc (option Response * option error) :=
  λ st,
    let '(r, (w, h)) := client_Do_struct req psm (world st) (heap st) in
    (r, {| world := w; heap := h |}, [EvDo req (IntoStruct psm) r]).

(** [var psms []*ProjectRepositoryStorageMove] followed by
    [s.client.Do(req, &psms)]; the first component of the result is
    [psms] after the call. *)
Definition Do_slice (req : Request)
    : Svc (slice * (option Response * option error)) :=
  λ st,
    let '(r, (w, h)) := client_Do_slice req (world st) (heap st) in
    (r, {| world := w; heap := h |}, [EvDo req IntoSlice r.2]).

(** [new(ProjectRepositoryStorageMove)] *)
Definition new_ProjectRepositoryStorageMove : Svc loc :=
  λ st,
    let '(l, h) := alloc (heap st) in
    (l, {| world := world st; heap := h |}, []).

(** ** The six methods *)

(** Lines 66-79. *)
Definition RetrieveAllStorageMoves (opts : RetrieveAllStorageMovesOptions)
    (options : list RequestOptionFunc)
    : Svc (slice * option Response * option error) :=
  '(req, err) ← NewRequest Go.MethodGet "project_repository_storage_moves"
                  (Some opts) options;
  match err with
  | Some _ => mret (None, None, err)
  | None =>
      '(psms, (resp, err)) ← Do_slice req;
      match err with
      | Some _ => mret (None, resp, err)
      | None => mret (psms, resp, err)
      end
  end.

(** Lines 86-101. *)
Definition RetrieveAllStorageMovesForProject (project : Z)
    (opts : RetrieveAllStorageMovesOptions)
    (options : list RequestOptionFunc)
    : Svc (slice * option Response * option error) :=
  let u := Go.Sprintf "projects/%d/repository_storage_moves" [project] in
  '(req, err) ← NewRequest Go.MethodGet u (Some opts) options;
  match err with
  | Some _ => mret (None, None, err)
  | None =>
      '(psms, (resp, err)) ← Do_slice req;
      match err with
      | Some _ => mret (None, resp, err)
      | None => mret (psms, resp, err)
      end
  end.

(** Lines 107-122. *)
Definition GetStorageMove (repositoryStorage : Z)
    (options : list RequestOptionFunc)
    : Svc (option loc * option Response * option error) :=
  let u := Go.Sprintf "project_repository_storage_moves/%d"
             [repositoryStorage] in
  '(req, err) ← NewRequest Go.MethodGet u None options;
  match err with
  | Some _ => mret (None, None, err)
  | None =>
      psm ← new_ProjectRepositoryStorageMove;
      '(resp, err) ← Do_struct req psm;
      match err with
      | Some _ => mret (None, resp, err)
      | None => mret (Some psm, resp, err)
      end
  end.

(** Lines 128-143. *)
Definition GetStorageMoveForProject (project repositoryStorage : Z)
    (options : list RequestOptionFunc)
    : Svc (option loc * option Response * option error) :=
  let u := Go.Sprintf "projects/%d/repository_storage_moves/%d"
             [project; repositoryStorage] in
  '(req, err) ← NewRequest Go.MethodGet u None options;
  match err with
  | Some _ => mret (None, None, err)
  | None =>
      psm ← new_ProjectRepositoryStorageMove;
      '(resp, err) ← Do_struct req psm;
      match err with
      | Some _ => mret (None, resp, err)
      | None => mret (Some psm, resp, err)
      end
  end.

(** Lines 149-162. *)
Definition ScheduleAllStorageMoves (options : list RequestOptionFunc)
    : Svc (slice * option Response * option error) :=
  '(req, err) ← NewRequest Go.MethodPost "project_repository_storage_moves"
                  None options;
  match err with
  | Some _ => mret (None, None, err)
  | None =>
      '(psms, (resp, err)) ← Do_slice req;
      match err with
      | Some _ => mret (None, resp, err)
      | None => mret (psms, resp, err)
      end
  end.

(** Lines 168-183. *)
Definition ScheduleStorageMoveForProject (project : Z)
    (options : list RequestOptionFunc)
    : Svc (slice * option Response * option error) :=
  let u := Go.Sprintf "projects/%d/repository_storage_moves" [project] in
  '(req, err) ← NewRequest Go.MethodPost u None options;
  match err with
  | Some _ => mret (None, None, err)
  | None =>
      '(psms, (resp, err)) ← Do_slice req;
      match err with
      | Some _ => mret (None, resp, err)
      | None => mret (psms, resp, err)
      end
  end.

End Service.

(** ** Decoding a JSON value into the structs of the file *)

(** What [encoding/json] does with a parsed value, given the types and the
    [json] tags of lines 38-53.  A failed decode yields [None]: the methods
    then return nil and drop the target, so what Go leaves in it cannot be
    observed and is not modelled. *)

Section Decode.

Context {T : GoTime}.

Definition upper (c : ascii) : ascii :=
  let n := JSON.code c in
  if ((97 <=? n) && (n <=? 122))%N then JSON.char (n - 32) else c.

(** Go matches the keys of an object with the names of the tags exactly
    or, failing that, up to case: letters are compared in upper case, and
    the two runes that Unicode folds onto ASCII letters (U+017F onto S,
    U+212A onto K, in UTF-8 the bytes C5 BF and E2 84 AA) with them. *)
Fixpoint foldName (s : string) : string :=
  match s with
  | EmptyString => EmptyString
  | String c rest =>
      match rest with
      | EmptyString => String (upper c) EmptyString
      | String c1 rest1 =>
          if ((JSON.code c =? 197) && (JSON.code c1 =? 191))%N
          then String "S" (foldName rest1)
          else
            match rest1 with
            | EmptyString => String (upper c) (foldName rest)
            | String c2 rest2 =>
                if ((JSON.code c =? 226) && (JSON.code c1 =? 132)
                    && (JSON.code c2 =? 170))%N
                then String "K" (foldName rest2)
                else String (upper c) (foldName rest)
            end
      end
  end.

(** The names of one struct stay distinct under folding, so looking for
    an exact match first, as Go does, finds the same field. *)
Definition names (tag key : string) : bool :=
  String.eqb (foldName tag) (foldName key).

(** Go's [int] has 64 bits. *)
Definition fits_int (n : Z) : bool :=
  (-9223372036854775808 <=? n) && (n <=? 9223372036854775807).

(** Into an [int]: a number written as an integer that fits; [null]
    leaves the field as it is. *)
Definition store_int (v : JSON.value) (old : Z) : option Z :=
  match v with
  | JSON.Null => Some old
  | JSON.Number literal =>
      n ← Go.Atoi literal; if fits_int n then Some n else None
  | _ => None
  end.

(** Into a [string]. *)
Definition store_string (v : JSON.value) (old : string) : option string :=
  match v with
  | JSON.Null => Some old
  | JSON.Str s => Some s
  | _ => None
  end.

(** Into a [*time.Time]: [null] sets the pointer to nil, any other value
    is handed to [UnmarshalJSON]. *)
Definition store_time (v : JSON.value) : option (option Time) :=
  match v with
  | JSON.Null => Some None
  | _ => t ← Time_UnmarshalJSON v; Some (Some t)
  end.

(** The members of an object are stored one after the other, in the
    order of the text: of two members for one field, the second wins. *)
Fixpoint store_members {A : Type}
    (set : string → JSON.value → A → option A)
    (members : list (string * JSON.value)) (a : A) : option A :=
  match members with
  | [] => Some a
  | (key, v) :: rest => a' ← set key v a; store_members set rest a'
  end.

(** One member into the struct of the field [Project] (lines 44-52);
    a key that names no field is skipped. *)
Definition set_project_field (key : string) (v : JSON.value)
    (p : ProjectSummary) : option ProjectSummary :=
  if names "id" key then
    x ← store_int v (Project_ID p);
    Some {| Project_ID := x;
            Project_Description := Project_Description p;
            Project_Name := Project_Name p;
            Project_NameWithNamespace := Project_NameWithNamespace p;
            Project_Path := Project_Path p;
            Project_PathWithNamespace := Project_PathWithNamespace p;
            Project_CreatedAt := Project_CreatedAt p |}
  else if names "description" key then
    x ← store_string v (Project_Description p);
    Some {| Project_ID := Project_ID p;
            Project_Description := x;
            Project_Name := Project_Name p;
            Project_NameWithNamespace := Project_NameWithNamespace p;
            Project_Path := Project_Path p;
            Project_PathWithNamespace := Project_PathWithNamespace p;
            Project_CreatedAt := Project_CreatedAt p |}
  else if names "name" key then
    x ← store_string v (Project_Name p);
    Some {| Project_ID := Project_ID p;
            Project_Description := Project_Description p;
            Project_Name := x;
            Project_NameWithNamespace := Project_NameWithNamespace p;
            Project_Path := Project_Path p;
            Project_PathWithNamespace := Project_PathWithNamespace p;
            Project_CreatedAt := Project_CreatedAt p |}
  else if names "name_with_namespace" key then
    x ← store_string v (Project_NameWithNamespace p);
    Some {| Project_ID := Project_ID p;
            Project_Description := Project_Description p;
            Project_Name := Project_Name p;
            Project_NameWithNamespace := x;
            Project_Path := Project_Path p;
            Project_PathWithNamespace := Project_PathWithNamespace p;
            Project_CreatedAt := Project_CreatedAt p |}
  else if names "path" key then
    x ← store_string v (Project_Path p);
    Some {| Project_ID := Project_ID p;
            Project_Description := Project_Description p;
            Project_Name := Project_Name p;
            Project_NameWithNamespace := Project_NameWithNamespace p;
            Project_Path := x;
            Project_PathWithNamespace := Project_PathWithNamespace p;
            Project_CreatedAt := Project_CreatedAt p |}
  else if names "path_with_namespace" key then
    x ← store_string v (Project_PathWithNamespace p);
    Some {| Project_ID := Project_ID p;
            Project_Description := Project_Description p;
            Project_Name := Project_Name p;
            Project_NameWithNamespace := Project_NameWithNamespace p;
            Project_Path := Project_Path p;
            Project_PathWithNamespace := x;
            Project_CreatedAt := Project_CreatedAt p |}
  else if names "created_at" key then
    x ← store_time v;
    Some {| Project_ID := Project_ID p;
            Project_Description := Project_Description p;
            Project_Name := Project_Name p;
            Project_NameWithNamespace := Project_NameWithNamespace p;
            Project_Path := Project_Path p;
            Project_PathWithNamespace := Project_PathWithNamespace p;
            Project_CreatedAt := x |}
  else Some p.

(** Into a struct: the members of an object; [null] changes nothing. *)
Definition store_project (v : JSON.value) (old : ProjectSummary)
    : option ProjectSummary :=
  match v with
  | JSON.Null => Some old
  | JSON.Object members => store_members set_project_field members old
  | _ => None
  end.

(** One member into a [ProjectRepositoryStorageMove] (lines 38-53). *)
Definition set_move_field (key : string) (v : JSON.value)
    (m : ProjectRepositoryStorageMove)
    : option ProjectRepositoryStorageMove :=
  if names "id" key then
    x ← store_int v (ID m);
    Some {| ID := x; CreatedAt := CreatedAt m; State := State m;
            SourceStorageName := SourceStorageName m;
            DestinationStorageName := DestinationStorageName m;
            Project := Project m |}
  else if names "created_at" key then
    x ← store_time v;
    Some {| ID := ID m; CreatedAt := x; State := State m;
            SourceStorageName := SourceStorageName m;
            DestinationStorageName := DestinationStorageName m;
            Project := Project m |}
  else if names "state" key then
    x ← store_string v (State m);
    Some {| ID := ID m; CreatedAt := CreatedAt m; State := x;
            SourceStorageName := SourceStorageName m;
            DestinationStorageName := DestinationStorageName m;
            Project := Project m |}
  else if names "source_storage_name" key then
    x ← store_string v (SourceStorageName m);
    Some {| ID := ID m; CreatedAt := CreatedAt m; State := State m;
            SourceStorageName := x;
            DestinationStorageName := DestinationStorageName m;
            Project := Project m |}
  else if names "destination_storage_name" key then
    x ← store_string v (DestinationStorageName m);
    Some {| ID := ID m; CreatedAt := CreatedAt m; State := State m;
            SourceStorageName := SourceStorageName m;
            DestinationStorageName := x;
            Project := Project m |}
  else if names "project" key then
    x ← store_project v (Project m);
    Some {| ID := ID m; CreatedAt := CreatedAt m; State := State m;
            SourceStorageName := SourceStorageName m;
            DestinationStorageName := DestinationStorageName m;
            Project := x |}
  else Some m.

Definition store_move (v : JSON.value) (old : ProjectRepositoryStorageMove)
    : option ProjectRepositoryStorageMove :=
  match v with
  | JSON.Null => Some old
  | JSON.Object members => store_members set_move_field members old
  | _ => None
  end.

(** The elements of an array bound for a [[]*ProjectRepositoryStorageMove]:
    [null] gives a nil pointer, any other value a new cell, which the
    value is then stored into. *)
Fixpoint store_elements (items : list JSON.value) (h : Heap)
    : option (list (option loc) * Heap) :=
  match items with
  | [] => Some ([], h)
  | JSON.Null :: rest =>
      '(ps, h') ← store_elements rest h; Some (None :: ps, h')
  | v :: rest =>
      let '(l, h1) := alloc h in
      m ← store_move v zero_ProjectRepositoryStorageMove;
      '(ps, h2) ← store_elements rest (<[l := m]> h1);
      Some (Some l :: ps, h2)
  end.

(** Into a nil [[]*ProjectRepositoryStorageMove]: [null] leaves it nil,
    an array makes a slice of its elements, empty but not nil for []. *)
Definition store_slice (v : JSON.value) (h : Heap) : option (slice * Heap) :=
  match v with
  | JSON.Null => Some (None, h)
  | JSON.Array items =>
      '(ps, h') ← store_elements items h; Some (Some ps, h')
  | _ => None
  end.

(** [json.Unmarshal(body, psm)]: the cell [psm] afterwards. *)
Definition Unmarshal_struct (body : string) (psm : loc) (h : Heap)
    : option Heap :=
  v ← JSON.parse body;
  old ← h !! psm;
  m ← store_move v old;
  Some (<[psm := m]> h).

(** [json.Unmarshal(body, &psms)] for a nil [psms]. *)
Definition Unmarshal_slice (body : string) (h : Heap)
    : option (slice * Heap) :=
  v ← JSON.parse body; store_slice v h.

End Decode.

(** ** The request pipeline, from the specification *)

(** [Client.NewRequest] and [Client.Do] are not in this file.  This section
    models them from sections 4.1 to 4.3 and 7 of the specification. *)

Section Pipeline.

Context {T : GoTime}.

(** Modelled from the spec: the error taxonomy of section 7.  An API
    status error carries the status and the error body, parsed if it is
    JSON, raw otherwise (section 4.3). *)
Inductive SpecError :=
| ErrInvalidRequest (what : string)
| ErrTransport
| ErrAPIStatus (status : Z) (detail : JSON.value + string)
| ErrDecode
| ErrCancelled.

(** Modelled from the spec: an outbound request (sections 2 and 4.1):
    method, relative path, query parameters, payload, headers, and
    whether the caller's cancellation token has fired. *)
Record SpecRequest := {
  req_method : string;
  req_path : string;
  req_query : list (string * string);
  req_payload : option RetrieveAllStorageMovesOptions;
  req_headers : list (string * string);
  req_cancelled : bool
}.

(** Modelled from the spec: a RequestModifier (section 3) is applied to
    the request being built and can fail; a failure leaves no partly
    changed request behind. *)
Definition SpecModifier : Type := SpecRequest → SpecError + SpecRequest.

(** Modelled from the spec: response metadata (section 3), reduced to the
    status and the body of the transport response. *)
Record SpecResponse := {
  resp_status : Z;
  resp_body : string
}.

(** *** Query encoding *)

Inductive field_value :=
| FInt (n : Z)
| FString (s : string).

Definition is_zero (v : field_value) : bool :=
  match v with
  | FInt n => n =? 0
  | FString s => String.eqb s ""
  end.

Definition render (v : field_value) : string :=
  match v with
  | FInt n => Go.Itoa n
  | FString s => s
  end.

(** Modelled from the spec: the fields of [ListOptions], under the keys
    they are sent with.  The specification names the fields only; the
    keys are those names in the spelling of the wire format. *)
Definition ListOptions_fields (o : ListOptions)
    : list (string * field_value) :=
  [("page", FInt (Page o)); ("cursor", FString (Cursor o));
   ("per_page", FInt (PerPage o))].

(** Modelled from the spec: the fields of an options struct become query
    parameters, the zero ones left out (sections 4.1 and 8). *)
Fixpoint encode_fields (fields : list (string * field_value))
    : list (string * string) :=
  match fields with
  | [] => []
  | (key, v) :: rest =>
      if is_zero v then encode_fields rest
      else (key, render v) :: encode_fields rest
  end.





(** *** 4.1 Request builder *)

(** Modelled from the spec: base construction.  For GET the options
    become query parameters; otherwise they are the payload, and no
    options means an empty payload. *)
Definition base_request (method path : string)
    (opt : option RetrieveAllStorageMovesOptions) : SpecRequest :=
  let get := String.eqb method Go.MethodGet in
  {| req_method := method;
     req_path := path;
     req_query :=
       match opt with
       | Some o => if get then encode_fields (ListOptions_fields o) else []
       | None => []
       end;
     req_payload := if get then None else opt;
     req_headers := [];
     req_cancelled := false |}.

(** Modelled from the spec: modifiers are applied after base
    construction, in order, and the first failure ends the build. *)
Fixpoint apply_modifiers (modifiers : list SpecModifier) (r : SpecRequest)
    : SpecError + SpecRequest :=
  match modifiers with
  | [] => inr r
  | f :: rest =>
      match f r with
      | inl e => inl e
      | inr r' => apply_modifiers rest r'
      end
  end.

(** What the network and the server do with a request: the connection
    fails, or an answer comes back. *)
Inductive reply :=
| Refused
| Answered (status : Z) (body : string).

(** Modelled from the spec: the world of the pipeline.  [well_formed] is
    the path check that the contract of the client requires, if any
    (section 4.1 leaves open whether there is one; [λ _, true] defers
    everything to the server).  [transport] is what the network and the
    server do with a request, [sent] the requests that went out. *)
Record SpecWorld := {
  well_formed : string → bool;
  transport : SpecRequest → reply;
  sent : list SpecRequest
}.

(** Modelled from the spec: [build(method, path, queryOrBody, modifiers)]
    of section 4.1.  A failed build returns no request. *)
Definition spec_NewRequest (method path : string)
    (opt : option RetrieveAllStorageMovesOptions)
    (modifiers : list SpecModifier) (w : SpecWorld)
    : (option SpecRequest * option SpecError) * SpecWorld :=
  if well_formed w path then
    match apply_modifiers modifiers (base_request method path opt) with
    | inr r => ((Some r, None), w)
    | inl e => ((None, Some e), w)
    end
  else ((None, Some (ErrInvalidRequest path)), w).

(** *** 4.2 Dispatcher *)

(** The world once [r] has gone out. *)
Definition after_sending (w : SpecWorld) (r : SpecRequest) : SpecWorld :=
  {| well_formed := well_formed w; transport := transport w;
     sent := sent w ++ [r] |}.

Definition success (status : Z) : bool := (200 <=? status) && (status <? 300).

Definition error_detail (body : string) : JSON.value + string :=
  match JSON.parse body with
  | Some v => inl v
  | None => inr body
  end.

(** Modelled from the spec: [do(request)] of section 4.2.  A request whose
    token has fired is not sent.  Otherwise it is sent exactly once; a
    transport failure gives no response, any answer gives one, with an
    API status error when the status is not 2xx. *)
Definition dispatch (r : SpecRequest) (w : SpecWorld)
    : (option SpecResponse * option SpecError) * SpecWorld :=
  if req_cancelled r then ((None, Some ErrCancelled), w)
  else
    let w' := after_sending w r in
    match transport w r with
    | Refused => ((None, Some ErrTransport), w')
    | Answered status body =>
        let resp := {| resp_status := status; resp_body := body |} in
        if success status then ((Some resp, None), w')
        else ((Some resp, Some (ErrAPIStatus status (error_detail body))), w')
    end.

(** *** 4.3 Decoder, and [Do] *)

(** Modelled from the spec: [Do(request, target)] of section 6 dispatches
    and, on a 2xx status, unmarshals the body into the target; a body
    that cannot be decoded gives [ErrDecode], with the response. *)
Definition spec_Do_struct (req : option SpecRequest) (psm : loc)
    (w : SpecWorld) (h : Heap)
    : (option SpecResponse * option SpecError) * (SpecWorld * Heap) :=
  match req with
  | None => ((None, Some (ErrInvalidRequest "")), (w, h))
  | Some r =>
      let '((resp, err), w') := dispatch r w in
      match resp, err with
      | Some rp, None =>
          match Unmarshal_struct (resp_body rp) psm h with
          | Some h' => ((resp, None), (w', h'))
          | None => ((resp, Some ErrDecode), (w', h))
          end
      | _, _ => ((resp, err), (w', h))
      end
  end.

Definition spec_Do_slice (req : option SpecRequest)
    (w : SpecWorld) (h : Heap)
    : (slice * (option SpecResponse * option SpecError)) * (SpecWorld * Heap) :=
  match req with
  | None => ((None, (None, Some (ErrInvalidRequest ""))), (w, h))
  | Some r =>
      let '((resp, err), w') := dispatch r w in
      match resp, err with
      | Some rp, None =>
          match Unmarshal_slice (resp_body rp) h with
          | Some (psms, h') => ((psms, (resp, None)), (w', h'))
          | None => ((None, (resp, Some ErrDecode)), (w', h))
          end
      | _, _ => ((None, (resp, err)), (w', h))
      end
  end.

(** The pipeline as a client of the methods. *)
Definition spec_client : Client :=
  {| World := SpecWorld;
     Request := option SpecRequest;
     Response := SpecResponse;
     error := SpecError;
     RequestOptionFunc := SpecModifier;
     client_NewRequest := spec_NewRequest;
     client_Do_struct := spec_Do_struct;
     client_Do_slice := spec_Do_slice |}.

(** A state of the methods over the pipeline. *)
Definition spec_state (w : SpecWorld) (h : Heap)
    : state (C := spec_client) :=
  @Build_state T spec_client w h.

End Pipeline.

(** ** The methods as one family *)

(** The names of the methods the file declares on the service. *)
Inductive method_name :=
| NameRetrieveAllStorageMoves
| NameRetrieveAllStorageMovesForProject
| NameGetStorageMove
| NameGetStorageMoveForProject
| NameScheduleAllStorageMoves
| NameScheduleStorageMoveForProject.

Definition exposed_methods : list method_name :=
  [NameRetrieveAllStorageMoves; NameRetrieveAllStorageMovesForProject;
   NameGetStorageMove; NameGetStorageMoveForProject;
   NameScheduleAllStorageMoves; NameScheduleStorageMoveForProject].

(** A method together with its arguments, the modifiers apart. *)
Inductive operation :=
| OpRetrieveAllStorageMoves (opts : RetrieveAllStorageMovesOptions)
| OpRetrieveAllStorageMovesForProject (project : Z)
    (opts : RetrieveAllStorageMovesOptions)
| OpGetStorageMove (repositoryStorage : Z)
| OpGetStorageMoveForProject (project repositoryStorage : Z)
| OpScheduleAllStorageMoves
| OpScheduleStorageMoveForProject (project : Z).

Definition name_of (op : operation) : method_name :=
  match op with
  | OpRetrieveAllStorageMoves _ => NameRetrieveAllStorageMoves
  | OpRetrieveAllStorageMovesForProject _ _ =>
      NameRetrieveAllStorageMovesForProject
  | OpGetStorageMove _ => NameGetStorageMove
  | OpGetStorageMoveForProject _ _ => NameGetStorageMoveForProject
  | OpScheduleAllStorageMoves => NameScheduleAllStorageMoves
  | OpScheduleStorageMoveForProject _ => NameScheduleStorageMoveForProject
  end.

(** The first result of a method: a sequence or a single move. *)
Inductive output :=
| Moves (psms : slice)
| Move (psm : option loc).

Inductive shape :=
| Sequence
| Single.

Definition zero_output (s : shape) : output :=
  match s with
  | Sequence => Moves None
  | Single => Move None
  end.

(** *** The table of section 4.4 *)

(** This part follows the words of the specification, to be compared with
    the methods: one row per operation, giving the HTTP method, the path
    with its identifiers in decimal, the options sent, and the shape of
    the output. *)
Record row := {
  row_method : string;
  row_path : string;
  row_input : option RetrieveAllStorageMovesOptions;
  row_output : shape
}.

Definition table (op : operation) : row :=
  match op with
  | OpRetrieveAllStorageMoves opts =>
      {| row_method := "GET";
         row_path := "project_repository_storage_moves";
         row_input := Some opts; row_output := Sequence |}
  | OpRetrieveAllStorageMovesForProject project opts =>
      {| row_method := "GET";
         row_path :=
           "projects/" +:+ Go.Itoa project +:+ "/repository_storage_moves";
         row_input := Some opts; row_output := Sequence |}
  | OpGetStorageMove id =>
      {| row_method := "GET";
         row_path := "project_repository_storage_moves/" +:+ Go.Itoa id;
         row_input := None; row_output := Single |}
  | OpGetStorageMoveForProject project id =>
      {| row_method := "GET";
         row_path :=
           "projects/" +:+ Go.Itoa project +:+ "/repository_storage_moves/"
           +:+ Go.Itoa id;
         row_input := None; row_output := Single |}
  | OpScheduleAllStorageMoves =>
      {| row_method := "POST";
         row_path := "project_repository_storage_moves";
         row_input := None; row_output := Sequence |}
  | OpScheduleStorageMoveForProject project =>
      {| row_method := "POST";
         row_path :=
           "projects/" +:+ Go.Itoa project +:+ "/repository_storage_moves";
         row_input := None; row_output := Sequence |}
  end.

Section Family.

Context {T : GoTime} {C : Client}.

(** Calling the method that [op] names, the result put in [output]. *)
Definition call (op : operation) (options : list RequestOptionFunc)
    : Svc (output * option Response * option error) :=
  match op with
  | OpRetrieveAllStorageMoves opts =>
      '(psms, resp, err) ← RetrieveAllStorageMoves opts options;
      mret (Moves psms, resp, err)
  | OpRetrieveAllStorageMovesForProject project opts =>
      '(psms, resp, err) ←
        RetrieveAllStorageMovesForProject project opts options;
      mret (Moves psms, resp, err)
  | OpGetStorageMove id =>
      '(psm, resp, err) ← GetStorageMove id options;
      mret (Move psm, resp, err)
  | OpGetStorageMoveForProject project id =>
      '(psm, resp, err) ← GetStorageMoveForProject project id options;
      mret (Move psm, resp, err)
  | OpScheduleAllStorageMoves =>
      '(psms, resp, err) ← ScheduleAllStorageMoves options;
      mret (Moves psms, resp, err)
  | OpScheduleStorageMoveForProject project =>
      '(psms, resp, err) ← ScheduleStorageMoveForProject project options;
      mret (Moves psms, resp, err)
  end.

(** The contract of section 4.4 in the words of the specification: build
    the request, dispatch it and decode into the shape of the row; on a
    failure return the zero output, the response if there is one, and
    the error as it came. *)
Definition compose (r : row) (options : list RequestOptionFunc)
    : Svc (output * option Response * option error) :=
  '(req, err) ← NewRequest (row_method r) (row_path r) (row_input r) options;
  match err with
  | Some _ => mret (zero_output (row_output r), None, err)
  | None =>
      match row_output r with
      | Sequence =>
          '(psms, (resp, err)) ← Do_slice req;
          match err with
          | Some _ => mret (Moves None, resp, err)
          | None => mret (Moves psms, resp, err)
          end
      | Single =>
          psm ← new_ProjectRepositoryStorageMove;
          '(resp, err) ← Do_struct req psm;
          match err with
          | Some _ => mret (Move None, resp, err)
          | None => mret (Move (Some psm), resp, err)
          end
      end
  end.

(** The events of a trace that are dispatches. *)
Definition is_dispatch (e : event) : bool :=
  match e with
  | EvDo _ _ _ => true
  | EvNewRequest _ _ _ _ _ => false
  end.

End Family.

(** ** Concrete runs *)

(** A reading of timestamps for the runs below: a time is kept as the text
    of the JSON string that denotes it. *)
Definition text_time : GoTime :=
  {| Time := string;
     Time_UnmarshalJSON := λ v,
       match v with
       | JSON.Str s => Some s
       | _ => None
       end |}.

Section Runs.

Context {T : GoTime}.

(** A server that answers every request with the same status and body,
    behind a client that checks no path. *)
Definition answering (status : Z) (body : string) : SpecWorld :=
  {| well_formed := λ _, true;
     transport := λ _, Answered status body;
     sent := [] |}.

(** A server that cannot be reached. *)
Definition unreachable : SpecWorld :=
  {| well_formed := λ _, true;
     transport := λ _, Refused;
     sent := [] |}.

(** A modifier that fails, as one given an invalid header value would. *)
Definition failing_modifier : SpecModifier :=
  λ _, inl (ErrInvalidRequest "invalid header value").

(** A modifier that adds a header. *)
Definition with_header (k v : string) : SpecModifier :=
  λ r, inr {| req_method := req_method r; req_path := req_path r;
              req_query := req_query r; req_payload := req_payload r;
              req_headers := req_headers r ++ [(k, v)];
              req_cancelled := req_cancelled r |}.

End Runs.

(** The bodies of the scenarios of section 8, with ['] for the double
    quote. *)
Definition scheduled_body : string :=
  JSON.dq "[{'id':1,'state':'scheduled','source_storage_name':'default','destination_storage_name':'nfs-02','project':{'id':7,'name':'demo'}}]".

Definition not_found_body : string :=
  JSON.dq "{'message':'404 Not Found'}".

Definition null_created_at_body : string :=
  JSON.dq "{'id':3,'created_at':null,'state':'started','project':{'id':7,'created_at':null}}".

(** The states the runs start from: an empty heap in front of a server. *)
Definition run_state (w : SpecWorld)
    : state (T := text_time) (C := spec_client) :=
  spec_state (T := text_time) w ∅.

(** ** Reading a request line *)

(** The characters of a path segment: lower-case letters, digits, the
    underscore and the minus sign.  None needs escaping in a URL. *)
Definition segment_char (c : ascii) : bool :=
  let n := JSON.code c in
  (((97 <=? n) && (n <=? 122)) || ((48 <=? n) && (n <=? 57))
   || (n =? 95) || (n =? 45))%N.

Fixpoint all_chars (P : ascii → bool) (s : string) : bool :=
  match s with
  | EmptyString => true
  | String c rest => P c && all_chars P rest
  end.

(** The pieces of [s] between the occurrences of [sep]. *)
Fixpoint split_on (sep : ascii) (s : string) : list string :=
  match s with
  | EmptyString => [EmptyString]
  | String c rest =>
      if Ascii.eqb c sep then EmptyString :: split_on sep rest
      else
        match split_on sep rest with
        | piece :: pieces => String c piece :: pieces
        | [] => [String c EmptyString]
        end
  end.

(** The segments of a path. *)
Definition segments (path : string) : list string := split_on "/" path.

(** Every segment is there (no leading, trailing or doubled slash) and is
    made of segment characters. *)
Definition well_segmented (path : string) : bool :=
  forallb (λ s, negb (String.eqb s "") && all_chars segment_char s)
    (segments path).

(** The integers a call carries, in the order of the arguments. *)
Definition identifiers (op : operation) : list Z :=
  match op with
  | OpRetrieveAllStorageMoves _ => []
  | OpRetrieveAllStorageMovesForProject project _ => [project]
  | OpGetStorageMove id => [id]
  | OpGetStorageMoveForProject project id => [project; id]
  | OpScheduleAllStorageMoves => []
  | OpScheduleStorageMoveForProject project => [project]
  end.

(** Reading a request line as the API documents it: which method of the
    service a request line stands for, and with which integers. *)
Definition route (method path : string) : option (method_name * list Z) :=
  let get := String.eqb method "GET" in
  let post := String.eqb method "POST" in
  match segments path with
  | [a] =>
      if String.eqb a "project_repository_storage_moves" then
        if get then Some (NameRetrieveAllStorageMoves, [])
        else if post then Some (NameScheduleAllStorageMoves, [])
        else None
      else None
  | [a; s] =>
      if String.eqb a "project_repository_storage_moves" && get then
        id ← Go.Atoi s; Some (NameGetStorageMove, [id])
      else None
  | [a; s; b] =>
      if String.eqb a "projects" && String.eqb b "repository_storage_moves"
      then
        project ← Go.Atoi s;
        if get then Some (NameRetrieveAllStorageMovesForProject, [project])
        else if post then Some (NameScheduleStorageMoveForProject, [project])
        else None
      else None
  | [a; s; b; t] =>
      if String.eqb a "projects" && String.eqb b "repository_storage_moves"
         && get
      then
        project ← Go.Atoi s; id ← Go.Atoi t;
        Some (NameGetStorageMoveForProject, [project; id])
      else None
  | _ => None
  end.

(** ** Reading an object *)

(** No member of the object is for the field with this tag. *)
Definition absent (tag : string) (members : list (string * JSON.value))
    : Prop :=
  Forall (λ kv, names tag kv.1 = false) members.

(** The tags of the two structs (lines 39-52). *)
Definition move_tags : list string :=
  ["id"; "created_at"; "state"; "source_storage_name";
   "destination_storage_name"; "project"].

Definition project_tags : list string :=
  ["id"; "description"; "name"; "name_with_namespace"; "path";
   "path_with_namespace"; "created_at"].

(** * Properties *)

(** ** Formatting *)

Lemma append_empty_r (s : string) : s +:+ "" = s.
Proof.
  induction s as [|c s IH]; [reflexivity|].
  change (String c (s +:+ "") = String c s). by rewrite IH.
Qed.

(** [Itoa] writes decimal numerals: reading one back gives the number. *)
Lemma Atoi_Itoa (n : Z) : Go.Atoi (Go.Itoa n) = Some n.
Proof.
  unfold Go.Atoi, Go.Itoa.
  rewrite NilZero.isi.
  - by rewrite DecimalZ.of_to.
  - destruct n; cbn; try discriminate.
    intros [= H]. by apply DecimalPos.Unsigned.to_uint_nonnil in H.
  - destruct n; cbn; try discriminate.
    intros [= H]. by apply DecimalPos.Unsigned.to_uint_nonnil in H.
Qed.

Lemma Itoa_inj (n m : Z) : Go.Itoa n = Go.Itoa m → n = m.
Proof.
  intros H. apply (f_equal Go.Atoi) in H.
  rewrite !Atoi_Itoa in H. congruence.
Qed.

Lemma Sprintf_move (id : Z) :
  Go.Sprintf "project_repository_storage_moves/%d" [id]
  = "project_repository_storage_moves/" +:+ Go.Itoa id.
Proof. cbn [Go.Sprintf]. by rewrite append_empty_r. Qed.

Lemma Sprintf_project (project : Z) :
  Go.Sprintf "projects/%d/repository_storage_moves" [project]
  = "projects/" +:+ Go.Itoa project +:+ "/repository_storage_moves".
Proof. reflexivity. Qed.

Lemma Sprintf_project_move (project id : Z) :
  Go.Sprintf "projects/%d/repository_storage_moves/%d" [project; id]
  = "projects/" +:+ Go.Itoa project +:+ "/repository_storage_moves/"
    +:+ Go.Itoa id.
Proof. cbn [Go.Sprintf]. by rewrite append_empty_r. Qed.

(** ** The methods over an arbitrary client *)

(** Unfolding the methods, and splitting on what the client returns. *)
Ltac run :=
  unfold call, compose, RetrieveAllStorageMoves,
    RetrieveAllStorageMovesForProject, GetStorageMove,
    GetStorageMoveForProject, ScheduleAllStorageMoves,
    ScheduleStorageMoveForProject;
  rewrite ?Sprintf_move, ?Sprintf_project, ?Sprintf_project_move;
  unfold NewRequest, Do_slice, Do_struct,
    new_ProjectRepositoryStorageMove, alloc, mbind, Svc_bind, mret, Svc_ret,
    Go.MethodGet, Go.MethodPost;
  cbn [table row_method row_path row_input row_output zero_output
       world heap].

Ltac cases :=
  repeat match goal with
    | |- context [client_NewRequest ?m ?p ?o ?os ?w] =>
        destruct (client_NewRequest m p o os w) as [[? [?|]] ?] eqn:?
    | |- context [client_Do_slice ?r ?w ?h] =>
        destruct (client_Do_slice r w h) as [[? [? [?|]]] [? ?]] eqn:?
    | |- context [client_Do_struct ?r ?l ?w ?h] =>
        destruct (client_Do_struct r l w h) as [[? [?|]] [? ?]] eqn:?
    end.

(** Membership of an event in a trace that has been computed. *)
Ltac mem :=
  repeat match goal with
    | H : _ ∈ _ ++ _ |- _ => apply elem_of_app in H as [H|H]
    | H : _ ∈ _ :: _ |- _ => apply elem_of_cons in H as [H|H]
    | H : _ ∈ [] |- _ => by apply elem_of_nil in H
    | H : EvNewRequest _ _ _ _ _ = _ |- _ => inversion H; clear H; subst
    | H : EvDo _ _ _ = _ |- _ => inversion H; clear H; subst
    end.

Section Generic.

Context {T : GoTime} {C : Client}.

(** Each method is the composition that section 4.4 describes, on the
    row of the table that describes it. *)
Lemma call_compose (op : operation) (options : list RequestOptionFunc)
    (st : state) :
  call op options st = compose (table op) options st.
Proof. destruct op; run; cases; reflexivity. Qed.

End Generic.


(** ** The methods over the pipeline of the specification *)

Section OverPipeline.

Context {T : GoTime}.

Implicit Types (w : SpecWorld) (h : Heap) (r : SpecRequest).

(** A build succeeds when the path passes the check of the contract and
    every modifier succeeds; the request is then the base request as the
    modifiers changed it. *)
Lemma spec_NewRequest_ok method path opt modifiers w r :
  well_formed w path = true →
  apply_modifiers modifiers (base_request method path opt) = inr r →
  spec_NewRequest method path opt modifiers w = ((Some r, None), w).
Proof. intros Hp Hm. unfold spec_NewRequest. by rewrite Hp, Hm. Qed.

(** A failing modifier: its error is the builder's, whatever follows it
    in the list. *)
Lemma apply_modifiers_fail (before after : list SpecModifier)
    (f : SpecModifier) r r' e :
  apply_modifiers before r = inr r' → f r' = inl e →
  apply_modifiers (before ++ f :: after) r = inl e.
Proof.
  revert r. induction before as [|g before IH]; intros r; cbn.
  - intros [= ->] Hf. by rewrite Hf.
  - destruct (g r) as [e'|r'']; [discriminate|]. apply IH.
Qed.

Lemma dispatch_answered r w status body :
  req_cancelled r = false → transport w r = Answered status body →
  dispatch r w =
    ((Some {| resp_status := status; resp_body := body |},
      if success status then None
      else Some (ErrAPIStatus status (error_detail body))),
     after_sending w r).
Proof.
  intros Hc Ht. unfold dispatch. rewrite Hc, Ht.
  by destruct (success status).
Qed.

(** A sequence-returning method whose request is built, sent and
    answered with a 2xx status returns what the body decodes to. *)
Lemma sequence_answered (op : operation) (modifiers : list SpecModifier)
    w h r status body :
  row_output (table op) = Sequence →
  well_formed w (row_path (table op)) = true →
  apply_modifiers modifiers
    (base_request (row_method (table op)) (row_path (table op))
       (row_input (table op))) = inr r →
  req_cancelled r = false →
  transport w r = Answered status body →
  success status = true →
  let resp := {| resp_status := status; resp_body := body |} in
  let build :=
    EvNewRequest (C := spec_client) (row_method (table op))
      (row_path (table op)) (row_input (table op)) modifiers
      (Some r, None) in
  call (C := spec_client) op modifiers (spec_state w h) =
    match Unmarshal_slice body h with
    | Some (psms, h') =>
        (Moves psms, Some resp, None,
         spec_state (after_sending w r) h',
         [build; EvDo (C := spec_client) (Some r) IntoSlice (Some resp, None)])
    | None =>
        (Moves None, Some resp, Some ErrDecode,
         spec_state (after_sending w r) h,
         [build;
          EvDo (C := spec_client) (Some r) IntoSlice
            (Some resp, Some ErrDecode)])
    end.
Proof.
  intros Hs Hp Hm Hc Ht H2 resp build. rewrite call_compose.
  unfold compose, NewRequest, Do_slice, mbind, Svc_bind, mret, Svc_ret.
  unfold spec_state.
  cbn [client_NewRequest client_Do_slice spec_client world heap].
  rewrite (spec_NewRequest_ok _ _ _ _ _ _ Hp Hm), Hs.
  unfold spec_Do_slice. cbn [world heap].
  rewrite (dispatch_answered _ _ _ _ Hc Ht), H2.
  cbn [resp_body].
  by destruct (Unmarshal_slice body h) as [[psms h']|].
Qed.

End OverPipeline.


(** ** What the methods ask of the client, and what they return *)

Section Methods.

Context {T : GoTime} {C : Client}.

(** C1. Whatever the method and its arguments: when the builder returns
    an error, the method returns the nil result, no response and that
    error, has dispatched nothing and allocated nothing; when the
    dispatcher returns an error, the method returns the nil result, the
    response the dispatcher returned (nil or not) and that error, and
    the request dispatched is the one that was built.  Over the pipeline
    of the specification, the error of a failing modifier is such a
    builder error: the method returns it and nothing is sent. *)
Theorem failure_propagation (op : operation)
    (options : list RequestOptionFunc) (st : state) :
  let r := call op options st in
  (∀ method u opt options' req e,
      EvNewRequest method u opt options' (req, Some e) ∈ trace r →
      value r = (zero_output (row_output (table op)), None, Some e)
      ∧ Forall (λ ev, is_dispatch ev = false) (trace r)
      ∧ heap (final r) = heap st)
  ∧ (∀ req v resp e,
      EvDo req v (resp, Some e) ∈ trace r →
      value r = (zero_output (row_output (table op)), resp, Some e)
      ∧ ∃ method u opt,
          EvNewRequest method u opt options (req, None) ∈ trace r)
  ∧ (∀ (before after : list SpecModifier) (f : SpecModifier)
       (w : SpecWorld) (h : Heap) (r' : SpecRequest) (e : SpecError),
      well_formed w (row_path (table op)) = true →
      apply_modifiers before
        (base_request (row_method (table op)) (row_path (table op))
           (row_input (table op))) = inr r' →
      f r' = inl e →
      let res :=
        call (C := spec_client) op (before ++ f :: after) (spec_state w h) in
      value res = (zero_output (row_output (table op)), None, Some e)
      ∧ sent (world (final res)) = sent w).
Proof.
  split; [|split].
  - intros method u opt options' req e H. revert H.
    destruct op; run; cases; unfold trace, value, final; cbn; intros H;
      mem; repeat split; repeat constructor.
  - intros req v resp e H. revert H.
    destruct op; run; cases; unfold trace, value, final; cbn; intros H;
      mem; (split; [reflexivity|]); do 3 eexists; apply list_elem_of_here.
  - intros before after f w h r' e Hp Hm Hf res. subst res.
    rewrite call_compose.
    unfold compose, NewRequest, mbind, Svc_bind, mret, Svc_ret, spec_state,
      value, final.
    cbn [client_NewRequest spec_client world heap]. unfold spec_NewRequest.
    rewrite Hp, (apply_modifiers_fail _ _ _ _ _ _ Hm Hf). by cbn.
Qed.


(** C2. [GetStorageMoveForProject] asks the builder for a GET request on
    the path [projects/{project}/repository_storage_moves/{id}], both
    numbers in decimal (reading them back gives the numbers), with nil
    options, and builds no other request; on the pipeline of the
    specification the base request for it has no query parameter, so the
    only ones it can carry come from the modifiers. *)
Theorem GetStorageMoveForProject_request (project id : Z)
    (options : list RequestOptionFunc) (st : state) :
  let path :=
    "projects/" +:+ Go.Itoa project +:+ "/repository_storage_moves/"
    +:+ Go.Itoa id in
  (∃ ret rest,
      trace (GetStorageMoveForProject project id options st)
      = EvNewRequest "GET" path None options ret :: rest
      ∧ Forall (λ ev, is_dispatch ev = true) rest)
  ∧ Go.Atoi (Go.Itoa project) = Some project
  ∧ Go.Atoi (Go.Itoa id) = Some id
  ∧ req_query (base_request "GET" path None) = [].
Proof.
  cbv zeta. split; [|by rewrite !Atoi_Itoa].
  run; cases; unfold trace; cbn; do 2 eexists;
    (split; [reflexivity|]); repeat constructor.
Qed.


(** C10. On success the two Get methods return a pointer that is not
    nil: the address of a cell that was not allocated before the call,
    the one handed to [Do] as its target.  The methods that return a
    sequence can return a nil or an empty one on success: over the
    pipeline of the specification they return nil when the body of a
    2xx answer is [null], and an empty sequence when it is an empty
    array. *)
Theorem success_results :
  (∀ (op : operation) (options : list RequestOptionFunc) (st : state),
      row_output (table op) = Single →
      let r := call op options st in
      (value r).2 = None →
      ∃ l, (value r).1.1 = Move (Some l)
           ∧ (l ∉ dom (heap st))
           ∧ (∃ req ret, EvDo req (IntoStruct l) ret ∈ trace r))
  ∧ (∀ (op : operation) (modifiers : list SpecModifier)
       (w : SpecWorld) (h : Heap) (r : SpecRequest)
       (status : Z) (body : string) (v : JSON.value),
      row_output (table op) = Sequence →
      well_formed w (row_path (table op)) = true →
      apply_modifiers modifiers
        (base_request (row_method (table op)) (row_path (table op))
           (row_input (table op))) = inr r →
      req_cancelled r = false →
      transport w r = Answered status body →
      success status = true →
      JSON.parse body = Some v →
      let resp := {| resp_status := status; resp_body := body |} in
      let res := call (C := spec_client) op modifiers (spec_state w h) in
      (v = JSON.Null → value res = (Moves None, Some resp, None))
      ∧ (v = JSON.Array [] → value res = (Moves (Some []), Some resp, None))).
Proof.
  split.
  - intros op options st Hs. revert Hs.
    destruct op; cbn [table row_output]; try discriminate; intros _;
      run; cases; unfold value, trace; cbn; try discriminate; intros _;
      (eexists; split; [reflexivity|]; split; [apply is_fresh|]);
      do 2 eexists; apply list_elem_of_further, list_elem_of_here.
  - intros op modifiers w h r status body v Hs Hp Hm Hc Ht H2 Hv resp res.
    subst res.
    rewrite (sequence_answered op modifiers w h r status body Hs Hp Hm Hc Ht H2).
    unfold Unmarshal_slice. rewrite Hv. cbn.
    split; intros ->; reflexivity.
Qed.

(** C4. The two Schedule methods ask the builder for a POST request with
    nil options.  Over the pipeline of the specification the absent body
    is no cause of failure: when the path passes the check of the
    contract and the modifiers succeed, the request is built, from a
    base request with an empty payload and no query, and the method goes
    on to dispatch it; unless a modifier cancelled it, it is sent. *)
Theorem schedule_without_body :
  (∀ (options : list RequestOptionFunc) (st : state),
      ∃ ret rest,
        trace (ScheduleAllStorageMoves options st)
        = EvNewRequest "POST" "project_repository_storage_moves" None
            options ret :: rest)
  ∧ (∀ (project : Z) (options : list RequestOptionFunc) (st : state),
      ∃ ret rest,
        trace (ScheduleStorageMoveForProject project options st)
        = EvNewRequest "POST"
            ("projects/" +:+ Go.Itoa project +:+ "/repository_storage_moves")
            None options ret :: rest)
  ∧ (∀ (op : operation) (modifiers : list SpecModifier)
       (w : SpecWorld) (h : Heap) (r : SpecRequest),
      row_method (table op) = "POST" →
      let base := base_request "POST" (row_path (table op)) None in
      well_formed w (row_path (table op)) = true →
      apply_modifiers modifiers base = inr r →
      let res := call (C := spec_client) op modifiers (spec_state w h) in
      req_payload base = None
      ∧ req_query base = []
      ∧ (∃ ret,
           trace res
           = [EvNewRequest (C := spec_client) "POST" (row_path (table op))
                None modifiers (Some r, None);
              EvDo (C := spec_client) (Some r) IntoSlice ret])
      ∧ (req_cancelled r = false →
         sent (world (final res)) = sent w ++ [r])).
Proof.
  split; [|split].
  - intros. run; cases; unfold trace; cbn; do 2 eexists; reflexivity.
  - intros. run; cases; unfold trace; cbn; do 2 eexists; reflexivity.
  - intros op modifiers w h r Hpost base Hp Hm res.
    split; [reflexivity|]. split; [reflexivity|].
    subst res base. rewrite call_compose. revert Hpost Hp Hm.
    destruct op; cbn [table row_method row_path row_input row_output];
      try discriminate; intros _ Hp Hm;
      unfold compose, NewRequest, Do_slice, mbind, Svc_bind, mret, Svc_ret,
        spec_state, trace, final;
      cbn [client_NewRequest client_Do_slice spec_client world heap
           row_method row_path row_input row_output];
      rewrite (spec_NewRequest_ok _ _ _ _ _ _ Hp Hm);
      unfold spec_Do_slice, dispatch; cbn [world heap];
      destruct (req_cancelled r);
      destruct (transport w r) as [|status body];
      try destruct (success status);
      try destruct (Unmarshal_slice _ _) as [[? ?]|];
      cbn; (split; [eexists; reflexivity|]); intros; done.
Qed.

(** C3, as amended. The file exposes six methods, not five.  Each is the
    composition of builder, dispatcher and decoder that section 4.4
    describes, with the method, path, input and output of its row of the
    table. *)
Theorem six_operations :
  length exposed_methods = 6%nat
  ∧ NoDup exposed_methods
  ∧ (∀ n : method_name, n ∈ exposed_methods ∧ ∃ op, name_of op = n)
  ∧ (∀ (op : operation) (options : list RequestOptionFunc) (st : state),
        call op options st = compose (table op) options st).
Proof.
  split; [reflexivity|]. split; [|split].
  - unfold exposed_methods.
    apply NoDup_ListNoDup. repeat constructor; cbn; intuition discriminate.
  - pose (o := {| Page := 0; Cursor := ""; PerPage := 0 |}).
    intros n; split.
    + unfold exposed_methods. destruct n; repeat constructor.
    + destruct n;
        [exists (OpRetrieveAllStorageMoves o)
        |exists (OpRetrieveAllStorageMovesForProject 0 o)
        |exists (OpGetStorageMove 0)
        |exists (OpGetStorageMoveForProject 0 0)
        |exists OpScheduleAllStorageMoves
        |exists (OpScheduleStorageMoveForProject 0)]; reflexivity.
  - apply call_compose.
Qed.

End Methods.

(** C3, as stated, fails: no list of five names holds every method of the
    file. *)
Lemma not_five_operations :
  ¬ ∃ l : list method_name,
      length l = 5%nat ∧ NoDup l ∧ ∀ n : method_name, n ∈ l.
Proof.
  intros (l & Hlen & _ & Hall).
  assert (Hsub : exposed_methods ⊆+ l).
  { apply NoDup_submseteq; [|intros n _; apply Hall].
    unfold exposed_methods.
    apply NoDup_ListNoDup. repeat constructor; cbn; intuition discriminate. }
  apply submseteq_length in Hsub. cbn in Hsub. lia.
Qed.


(** ** Decoding *)

(** Settling the tests on names once the folded key is known. *)
Ltac decide_names :=
  repeat match goal with
    | |- context [String.eqb (foldName ?tag) ?k] =>
        let b := eval vm_compute in (String.eqb (foldName tag) k) in
        change (String.eqb (foldName tag) k) with b
    end;
  cbv iota.

Section DecodeFacts.

Context {T : GoTime}.

Lemma store_members_app {A : Type}
    (set : string → JSON.value → A → option A)
    (ms1 ms2 : list (string * JSON.value)) (a : A) :
  store_members set (ms1 ++ ms2) a
  = a' ← store_members set ms1 a; store_members set ms2 a'.
Proof.
  revert a. induction ms1 as [|[k v] ms1 IH]; intros a; cbn; [done|].
  destruct (set k v a) as [a1|]; cbn; [apply IH|done].
Qed.

(** Members that leave a component of the struct alone, one by one,
    leave it alone together. *)
Lemma store_members_keep {A B : Type}
    (set : string → JSON.value → A → option A) (f : A → B)
    (ms : list (string * JSON.value)) (a a' : A) :
  Forall (λ kv, ∀ x x', set kv.1 kv.2 x = Some x' → f x' = f x) ms →
  store_members set ms a = Some a' → f a' = f a.
Proof.
  intros Hall. revert a. induction Hall as [|[k v] ms Hkv _ IH]; intros a; cbn.
  - by intros [= ->].
  - destruct (set k v a) as [a1|] eqn:Hset; cbn; [|done].
    intros H. rewrite (IH _ H). by apply Hkv.
Qed.

Lemma names_created_at (key : string) :
  names "created_at" key = true → foldName key = "CREATED_AT".
Proof. unfold names. intros H. by apply String.eqb_eq in H. Qed.

Lemma names_project (key : string) :
  names "project" key = true → foldName key = "PROJECT".
Proof. unfold names. intros H. by apply String.eqb_eq in H. Qed.

Lemma set_move_field_created_at key v m m' :
  names "created_at" key = true →
  set_move_field key v m = Some m' → Some (CreatedAt m') = store_time v.
Proof.
  intros Hk. apply names_created_at in Hk.
  unfold set_move_field, names. rewrite Hk. decide_names.
  destruct (store_time v); cbn; [|done]. by intros [= <-].
Qed.

Lemma set_move_field_other key v m m' :
  names "created_at" key = false →
  set_move_field key v m = Some m' → CreatedAt m' = CreatedAt m.
Proof.
  intros Hk. unfold set_move_field. rewrite Hk.
  repeat (match goal with
          | |- context [names ?tag key] => destruct (names tag key)
          end);
    intros; simplify_option_eq; reflexivity.
Qed.

Lemma set_project_field_created_at key v p p' :
  names "created_at" key = true →
  set_project_field key v p = Some p' →
  Some (Project_CreatedAt p') = store_time v.
Proof.
  intros Hk. apply names_created_at in Hk.
  unfold set_project_field, names. rewrite Hk. decide_names.
  destruct (store_time v); cbn; [|done]. by intros [= <-].
Qed.

Lemma set_project_field_other key v p p' :
  names "created_at" key = false →
  set_project_field key v p = Some p' →
  Project_CreatedAt p' = Project_CreatedAt p.
Proof.
  intros Hk. unfold set_project_field. rewrite Hk.
  repeat (match goal with
          | |- context [names ?tag key] => destruct (names tag key)
          end);
    intros; simplify_option_eq; reflexivity.
Qed.

Lemma set_move_field_project key v m m' :
  names "project" key = true →
  set_move_field key v m = Some m' →
  store_project v (Project m) = Some (Project m').
Proof.
  intros Hk. apply names_project in Hk.
  unfold set_move_field, names. rewrite Hk. decide_names.
  destruct (store_project v (Project m)); cbn; [|done]. by intros [= <-].
Qed.

Lemma set_move_field_not_project key v m m' :
  names "project" key = false →
  set_move_field key v m = Some m' → Project m' = Project m.
Proof.
  intros Hk. unfold set_move_field. rewrite Hk.
  repeat (match goal with
          | |- context [names ?tag key] => destruct (names tag key)
          end);
    intros; simplify_option_eq; reflexivity.
Qed.

(** The last member for a field decides: a [null] for [created_at],
    with no later member for it, leaves the pointer nil. *)
Lemma store_move_null before key after old m :
  names "created_at" key = true →
  Forall (λ kv, names "created_at" kv.1 = false) after →
  store_move (JSON.Object (before ++ (key, JSON.Null) :: after)) old
  = Some m →
  CreatedAt m = None.
Proof.
  intros Hk Hafter. cbn [store_move]. rewrite store_members_app.
  destruct (store_members set_move_field before old) as [m1|]; cbn; [|done].
  destruct (set_move_field key JSON.Null m1) as [m2|] eqn:H2; cbn; [|done].
  intros H.
  rewrite (store_members_keep set_move_field CreatedAt after m2 m); [|..|done].
  - apply (set_move_field_created_at _ _ _ _ Hk) in H2. cbn in H2. congruence.
  - eapply Forall_impl; [exact Hafter|].
    intros [k v] Hkv x x'. by apply set_move_field_other.
Qed.

Lemma store_project_null before key after old p :
  names "created_at" key = true →
  Forall (λ kv, names "created_at" kv.1 = false) after →
  store_project (JSON.Object (before ++ (key, JSON.Null) :: after)) old
  = Some p →
  Project_CreatedAt p = None.
Proof.
  intros Hk Hafter. cbn [store_project]. rewrite store_members_app.
  destruct (store_members set_project_field before old) as [p1|]; cbn; [|done].
  destruct (set_project_field key JSON.Null p1) as [p2|] eqn:H2; cbn; [|done].
  intros H.
  rewrite (store_members_keep set_project_field Project_CreatedAt after p2 p);
    [|..|done].
  - apply (set_project_field_created_at _ _ _ _ Hk) in H2. cbn in H2.
    congruence.
  - eapply Forall_impl; [exact Hafter|].
    intros [k v] Hkv x x'. by apply set_project_field_other.
Qed.

(** C6. Decoding an object in which [created_at] is [null] (the last
    member for that key, as Go reads duplicates) gives a move whose
    [CreatedAt] is nil, which no timestamp equals; and when the value of
    [project] is an object in which [created_at] is [null], the
    [CreatedAt] of [Project] is nil in the same way. *)
Theorem null_created_at_is_absent :
  (∀ before key after old m,
      names "created_at" key = true →
      Forall (λ kv, names "created_at" kv.1 = false) after →
      store_move (JSON.Object (before ++ (key, JSON.Null) :: after)) old
      = Some m →
      CreatedAt m = None ∧ ∀ t : Time, CreatedAt m ≠ Some t)
  ∧ (∀ before key after pbefore pkey pafter old m,
      names "project" key = true →
      Forall (λ kv, names "project" kv.1 = false) after →
      names "created_at" pkey = true →
      Forall (λ kv, names "created_at" kv.1 = false) pafter →
      store_move
        (JSON.Object
           (before
            ++ (key, JSON.Object (pbefore ++ (pkey, JSON.Null) :: pafter))
            :: after)) old
      = Some m →
      Project_CreatedAt (Project m) = None
      ∧ ∀ t : Time, Project_CreatedAt (Project m) ≠ Some t).
Proof.
  split.
  - intros before key after old m Hk Hafter H.
    rewrite (store_move_null _ _ _ _ _ Hk Hafter H). by split.
  - intros before key after pbefore pkey pafter old m Hk Hafter Hpk Hpafter.
    cbn [store_move]. rewrite store_members_app.
    destruct (store_members set_move_field before old) as [m1|]; cbn; [|done].
    destruct (set_move_field key _ m1) as [m2|] eqn:H2; cbn; [|done].
    intros H.
    assert (Project m = Project m2) as ->.
    { apply (store_members_keep set_move_field Project after); [|done].
      eapply Forall_impl; [exact Hafter|].
      intros [k v] Hkv x x'. by apply set_move_field_not_project. }
    apply (set_move_field_project _ _ _ _ Hk) in H2.
    rewrite (store_project_null _ _ _ _ _ Hpk Hpafter H2). by split.
Qed.

End DecodeFacts.


(** ** Query encoding and the scenarios, over the pipeline *)

Section PipelineClaims.

Context {T : GoTime}.




(** The text of the scenario parses. *)
Lemma parse_scheduled_body :
  JSON.parse scheduled_body
  = Some (JSON.Array
      [JSON.Object
         [("id", JSON.Number "1"); ("state", JSON.Str "scheduled");
          ("source_storage_name", JSON.Str "default");
          ("destination_storage_name", JSON.Str "nfs-02");
          ("project",
            JSON.Object [("id", JSON.Number "7"); ("name", JSON.Str "demo")])]]).
Proof. vm_compute. reflexivity. Qed.

(** C7. The server answers [ScheduleAllStorageMoves] with status 200 and
    the body of the scenario: the method returns a sequence of one
    pointer, to a new cell that holds the move with ID 1 and state
    scheduled (and the other fields of the body), together with the
    response and a nil error. *)
Theorem schedule_all_scenario (h : Heap) :
  let res :=
    ScheduleAllStorageMoves (C := spec_client) []
      (spec_state (answering 200 scheduled_body) h) in
  ∃ (l : loc) (m : ProjectRepositoryStorageMove) (resp : SpecResponse),
    value res = (Some [Some l], Some resp, None)
    ∧ resp_status resp = 200
    ∧ h !! l = None
    ∧ heap (final res) !! l = Some m
    ∧ ID m = 1
    ∧ State m = "scheduled"
    ∧ CreatedAt m = None
    ∧ SourceStorageName m = "default"
    ∧ DestinationStorageName m = "nfs-02"
    ∧ Project_ID (Project m) = 7
    ∧ Project_Name (Project m) = "demo".
Proof.
  cbv zeta.
  pose proof (sequence_answered OpScheduleAllStorageMoves []
                (answering 200 scheduled_body) h
                (base_request "POST" "project_repository_storage_moves" None)
                200 scheduled_body eq_refl eq_refl eq_refl eq_refl eq_refl
                eq_refl) as Hrun.
  cbv zeta in Hrun. unfold Unmarshal_slice in Hrun.
  rewrite parse_scheduled_body in Hrun.
  cbn [mbind option_bind store_slice store_elements alloc] in Hrun.
  replace (store_move _ zero_ProjectRepositoryStorageMove)
    with (Some {| ID := 1; CreatedAt := None; State := "scheduled";
                  SourceStorageName := "default";
                  DestinationStorageName := "nfs-02";
                  Project :=
                    {| Project_ID := 7; Project_Description := "";
                       Project_Name := "demo";
                       Project_NameWithNamespace := "";
                       Project_Path := ""; Project_PathWithNamespace := "";
                       Project_CreatedAt := None |} |}) in Hrun
    by (vm_compute; reflexivity).
  cbn [mbind option_bind] in Hrun.
  unfold call, mbind, Svc_bind, mret, Svc_ret in Hrun.
  destruct (ScheduleAllStorageMoves _ _) as [[[[psms resp] err] st'] t].
  injection Hrun as -> -> -> -> _.
  unfold value, final, spec_state. cbn [fst snd heap].
  eexists _, _, _. split; [reflexivity|]. split; [reflexivity|].
  split; [apply (proj1 (not_elem_of_dom h (fresh (dom h)))), is_fresh|].
  split; [apply lookup_insert_eq|]. by repeat split.
Qed.

End PipelineClaims.

(** * Further properties *)

(** ** The paths the methods build *)

Lemma all_chars_uint (P : ascii → bool) (d : Decimal.uint) :
  (∀ c, JSON.is_digit c = true → P c = true) →
  all_chars P (NilEmpty.string_of_uint d) = true.
Proof.
  intros HP. induction d; cbn [NilEmpty.string_of_uint all_chars];
    rewrite ?IHd, ?andb_true_r; try reflexivity; by apply HP.
Qed.

(** A decimal numeral is not empty and is made of digits, after a minus
    sign for a negative number. *)
Lemma Itoa_chars (P : ascii → bool) (n : Z) :
  (∀ c, JSON.is_digit c = true → P c = true) → P "-"%char = true →
  all_chars P (Go.Itoa n) = true ∧ Go.Itoa n ≠ "".
Proof.
  intros HP Hminus. unfold Go.Itoa.
  assert (Hu : ∀ p, all_chars P (NilZero.string_of_uint (Pos.to_uint p)) = true
                    ∧ NilZero.string_of_uint (Pos.to_uint p) ≠ "").
  { intros p. pose proof (DecimalPos.Unsigned.to_uint_nonnil p) as Hnil.
    unfold NilZero.string_of_uint.
    destruct (Pos.to_uint p) eqn:Hp; try done;
      (split; [rewrite <- Hp; by apply all_chars_uint|done]). }
  destruct n as [|p|p]; cbn [Z.to_int NilZero.string_of_int].
  - split; [|done]. cbn. rewrite andb_true_r. by apply HP.
  - apply Hu.
  - split; [|done]. cbn [all_chars]. by rewrite Hminus, (proj1 (Hu p)).
Qed.

Lemma segment_char_digit (c : ascii) :
  JSON.is_digit c = true → segment_char c = true.
Proof.
  unfold JSON.is_digit, segment_char. intros ->.
  by rewrite orb_true_r.
Qed.

Lemma all_chars_not (P : ascii → bool) (sep c : ascii) :
  P sep = false → P c = true → Ascii.eqb c sep = false.
Proof.
  intros Hsep Hc. destruct (Ascii.eqb_spec c sep) as [->|]; [congruence|done].
Qed.

Lemma split_on_whole (P : ascii → bool) (sep : ascii) (a : string) :
  P sep = false → all_chars P a = true → split_on sep a = [a].
Proof.
  intros Hsep. induction a as [|x a IH]; intros Ha; [reflexivity|].
  cbn [all_chars] in Ha. apply andb_true_iff in Ha as [Hx Ha].
  cbn [split_on]. by rewrite (all_chars_not P sep x Hsep Hx), (IH Ha).
Qed.

Lemma split_on_append (P : ascii → bool) (sep : ascii) (a b : string) :
  P sep = false → all_chars P a = true →
  split_on sep (a +:+ String sep b) = a :: split_on sep b.
Proof.
  intros Hsep. induction a as [|x a IH]; intros Ha.
  - change (split_on sep (String sep b) = "" :: split_on sep b).
    cbn [split_on]. by rewrite Ascii.eqb_refl.
  - cbn [all_chars] in Ha. apply andb_true_iff in Ha as [Hx Ha].
    change (split_on sep (String x (a +:+ String sep b))
            = String x a :: split_on sep b).
    cbn [split_on]. by rewrite (all_chars_not P sep x Hsep Hx), (IH Ha).
Qed.

(** The segments of the four shapes of path. *)
Lemma segments_move (id : Z) :
  segments ("project_repository_storage_moves/" +:+ Go.Itoa id)
  = ["project_repository_storage_moves"; Go.Itoa id].
Proof.
  unfold segments.
  change ("project_repository_storage_moves/" +:+ Go.Itoa id)
    with ("project_repository_storage_moves" +:+ String "/" (Go.Itoa id)).
  rewrite (split_on_append segment_char) by reflexivity.
  rewrite (split_on_whole segment_char); [done..|].
  by apply Itoa_chars; [apply segment_char_digit|].
Qed.

Lemma segments_project (project : Z) :
  segments ("projects/" +:+ Go.Itoa project +:+ "/repository_storage_moves")
  = ["projects"; Go.Itoa project; "repository_storage_moves"].
Proof.
  unfold segments.
  change ("projects/" +:+ Go.Itoa project +:+ "/repository_storage_moves")
    with ("projects"
          +:+ String "/"
                (Go.Itoa project +:+ String "/" "repository_storage_moves")).
  rewrite (split_on_append segment_char) by reflexivity.
  rewrite (split_on_append segment_char);
    [done..|by apply Itoa_chars; [apply segment_char_digit|]].
Qed.

Lemma segments_project_move (project id : Z) :
  segments
    ("projects/" +:+ Go.Itoa project +:+ "/repository_storage_moves/"
     +:+ Go.Itoa id)
  = ["projects"; Go.Itoa project; "repository_storage_moves"; Go.Itoa id].
Proof.
  unfold segments.
  change ("projects/" +:+ Go.Itoa project +:+ "/repository_storage_moves/"
          +:+ Go.Itoa id)
    with ("projects"
          +:+ String "/"
                (Go.Itoa project
                 +:+ String "/"
                       ("repository_storage_moves"
                        +:+ String "/" (Go.Itoa id)))).
  rewrite (split_on_append segment_char) by reflexivity.
  rewrite (split_on_append segment_char);
    [|done|by apply Itoa_chars; [apply segment_char_digit|]].
  rewrite (split_on_append segment_char) by reflexivity.
  rewrite (split_on_whole segment_char); [done..|].
  by apply Itoa_chars; [apply segment_char_digit|].
Qed.

Lemma segment_ok_Itoa (n : Z) :
  negb (String.eqb (Go.Itoa n) "") && all_chars segment_char (Go.Itoa n)
  = true.
Proof.
  destruct (Itoa_chars segment_char n segment_char_digit eq_refl) as [Hc Hne].
  rewrite Hc, andb_true_r. apply negb_true_iff.
  by destruct (String.eqb_spec (Go.Itoa n) "").
Qed.

(** The path of every row of the table is well segmented and routes back
    to the method and the integers of the call. *)
Lemma table_well_segmented (op : operation) :
  well_segmented (row_path (table op)) = true.
Proof.
  unfold well_segmented.
  destruct op; cbn [table row_path];
    rewrite ?segments_move, ?segments_project, ?segments_project_move;
    cbn [forallb]; rewrite ?segment_ok_Itoa; reflexivity.
Qed.

Lemma table_route (op : operation) :
  route (row_method (table op)) (row_path (table op))
  = Some (name_of op, identifiers op).
Proof.
  unfold route.
  destruct op; cbn [table row_path row_method];
    rewrite ?segments_move, ?segments_project, ?segments_project_move;
    cbn [name_of identifiers]; try reflexivity;
    cbv beta iota zeta;
    repeat match goal with
      | |- context [String.eqb ?a ?b] =>
          let v := eval vm_compute in (String.eqb a b) in
          change (String.eqb a b) with v
      end;
    cbn [andb]; rewrite ?Atoi_Itoa; reflexivity.
Qed.

Section Paths.

Context {T : GoTime} {C : Client}.

(** What a method asks the builder first. *)
Lemma call_builds (op : operation) (options : list RequestOptionFunc)
    (st : state) :
  ∃ ret rest,
    trace (call op options st)
    = EvNewRequest (row_method (table op)) (row_path (table op))
        (row_input (table op)) options ret :: rest
    ∧ Forall (λ ev, is_dispatch ev = true) rest.
Proof.
  destruct op; run; cases; unfold trace; cbn; do 2 eexists;
    (split; [reflexivity|]); repeat constructor.
Qed.

(** X1. Whatever the integers, zero and negative ones included, every
    path a method hands to the builder is made of non-empty segments of
    lower-case letters, digits, underscores and minus signs: it has no
    leading, trailing or doubled slash, no formatting residue, and
    nothing that would need escaping in a URL. *)
Theorem paths_well_segmented (op : operation)
    (options : list RequestOptionFunc) (st : state) :
  ∀ method u opt options' ret,
    EvNewRequest method u opt options' ret ∈ trace (call op options st) →
    well_segmented u = true.
Proof.
  intros method u opt options' ret Hin.
  destruct (call_builds op options st) as (ret0 & rest & Htrace & Hrest).
  rewrite Htrace in Hin. apply elem_of_cons in Hin as [Heq|Hin].
  - injection Heq as _ -> _ _ _. apply table_well_segmented.
  - rewrite Forall_forall in Hrest. by apply Hrest in Hin.
Qed.

(** X2. The request line tells the calls apart: reading back the HTTP
    method and the path that a call hands to the builder gives the
    method of the service that was called and its integers; so two
    calls that ask for the same request line are calls of the same
    method with the same integers. *)
Theorem request_line_routes (op : operation)
    (options : list RequestOptionFunc) (st : state) :
  (∃ ret rest,
      trace (call op options st)
      = EvNewRequest (row_method (table op)) (row_path (table op))
          (row_input (table op)) options ret :: rest
      ∧ route (row_method (table op)) (row_path (table op))
        = Some (name_of op, identifiers op))
  ∧ (∀ (op' : operation) (options' : list RequestOptionFunc) (st' : state)
       method u opt opt' ret ret' rest rest',
        trace (call op options st)
        = EvNewRequest method u opt options ret :: rest →
        trace (call op' options' st')
        = EvNewRequest method u opt' options' ret' :: rest' →
        name_of op = name_of op' ∧ identifiers op = identifiers op').
Proof.
  split.
  - destruct (call_builds op options st) as (ret & rest & Htrace & _).
    exists ret, rest. split; [exact Htrace|apply table_route].
  - intros op' options' st' method u opt opt' ret ret' rest rest' H H'.
    destruct (call_builds op options st) as (r & t & Htrace & _).
    destruct (call_builds op' options' st') as (r' & t' & Htrace' & _).
    rewrite Htrace in H. rewrite Htrace' in H'.
    injection H as Hm Hu _ _ _. injection H' as Hm' Hu' _ _ _.
    pose proof (table_route op) as Hr. pose proof (table_route op') as Hr'.
    rewrite Hm, Hu in Hr. rewrite Hm', Hu' in Hr'.
    rewrite Hr in Hr'. by injection Hr' as -> ->.
Qed.

End Paths.

(** ** Decoding moves *)

(** Settling the tests of a setter for a key that names a given tag. *)
Ltac named Hk :=
  unfold names in Hk; apply String.eqb_eq in Hk;
  unfold set_move_field, set_project_field, names; rewrite <- Hk;
  decide_names.

(** Settling them by cases for a key that does not. *)
Ltac unnamed Hk :=
  unfold set_move_field, set_project_field; rewrite ?Hk;
  repeat (match goal with
          | |- context [names ?tag ?key] => destruct (names tag key)
          end);
  intros; simplify_option_eq; reflexivity.

Section DecodeMore.

Context {T : GoTime}.

(** The last member that names a field decides it. *)
Lemma store_members_last {A B : Type}
    (set : string → JSON.value → A → option A) (get : A → B)
    (store : JSON.value → B → option B) (tag : string) :
  (∀ key v a a', names tag key = true → set key v a = Some a' →
                 store v (get a) = Some (get a')) →
  (∀ key v a a', names tag key = false → set key v a = Some a' →
                 get a' = get a) →
  ∀ before key v after old a,
    names tag key = true →
    Forall (λ kv, names tag kv.1 = false) after →
    store_members set (before ++ (key, v) :: after) old = Some a →
    ∃ a1, store_members set before old = Some a1
          ∧ store v (get a1) = Some (get a).
Proof.
  intros Hset Hother before key v after old a Hk Hafter.
  rewrite store_members_app.
  destruct (store_members set before old) as [a1|]; cbn; [|done].
  destruct (set key v a1) as [a2|] eqn:H2; cbn; [|done].
  intros H. exists a1. split; [done|].
  rewrite (store_members_keep set get after a2 a); [by eapply Hset| |done].
  eapply Forall_impl; [exact Hafter|].
  intros [k w] Hkw x x'. by apply Hother.
Qed.

(** A member whose value cannot be stored fails the object. *)
Lemma store_members_fail {A : Type}
    (set : string → JSON.value → A → option A) before key v after old :
  (∀ a, set key v a = None) →
  store_members set (before ++ (key, v) :: after) old = None.
Proof.
  intros Hfail. rewrite store_members_app.
  destruct (store_members set before old) as [a1|]; cbn; [|done].
  by rewrite Hfail.
Qed.


Lemma set_move_id key v m m' :
  names "id" key = true → set_move_field key v m = Some m' →
  store_int v (ID m) = Some (ID m').
Proof.
  intros Hk. named Hk.
  destruct (store_int v (ID m)); cbn; [|done]. by intros [= <-].
Qed.

Lemma set_move_state key v m m' :
  names "state" key = true → set_move_field key v m = Some m' →
  store_string v (State m) = Some (State m').
Proof.
  intros Hk. named Hk.
  destruct (store_string v (State m)); cbn; [|done]. by intros [= <-].
Qed.

Lemma set_move_source key v m m' :
  names "source_storage_name" key = true →
  set_move_field key v m = Some m' →
  store_string v (SourceStorageName m) = Some (SourceStorageName m').
Proof.
  intros Hk. named Hk.
  destruct (store_string v (SourceStorageName m)); cbn; [|done].
  by intros [= <-].
Qed.

Lemma set_move_destination key v m m' :
  names "destination_storage_name" key = true →
  set_move_field key v m = Some m' →
  store_string v (DestinationStorageName m)
  = Some (DestinationStorageName m').
Proof.
  intros Hk. named Hk.
  destruct (store_string v (DestinationStorageName m)); cbn; [|done].
  by intros [= <-].
Qed.

Lemma set_move_created_at key v m m' :
  names "created_at" key = true → set_move_field key v m = Some m' →
  (λ v (_ : option Time), store_time v) v (CreatedAt m)
  = Some (CreatedAt m').
Proof.
  intros Hk. named Hk.
  destruct (store_time v); cbn; [|done]. by intros [= <-].
Qed.

Lemma set_move_keeps_id key v m m' :
  names "id" key = false → set_move_field key v m = Some m' →
  ID m' = ID m.
Proof. intros Hk. unnamed Hk. Qed.

Lemma set_move_keeps_state key v m m' :
  names "state" key = false → set_move_field key v m = Some m' →
  State m' = State m.
Proof. intros Hk. unnamed Hk. Qed.

Lemma set_move_keeps_source key v m m' :
  names "source_storage_name" key = false →
  set_move_field key v m = Some m' →
  SourceStorageName m' = SourceStorageName m.
Proof. intros Hk. unnamed Hk. Qed.

Lemma set_move_keeps_destination key v m m' :
  names "destination_storage_name" key = false →
  set_move_field key v m = Some m' →
  DestinationStorageName m' = DestinationStorageName m.
Proof. intros Hk. unnamed Hk. Qed.

Lemma set_project_id key v p p' :
  names "id" key = true → set_project_field key v p = Some p' →
  store_int v (Project_ID p) = Some (Project_ID p').
Proof.
  intros Hk. named Hk.
  destruct (store_int v (Project_ID p)); cbn; [|done]. by intros [= <-].
Qed.

Lemma set_project_keeps_id key v p p' :
  names "id" key = false → set_project_field key v p = Some p' →
  Project_ID p' = Project_ID p.
Proof. intros Hk. unnamed Hk. Qed.

Lemma set_project_description key v p p' :
  names "description" key = true → set_project_field key v p = Some p' →
  store_string v (Project_Description p) = Some (Project_Description p').
Proof.
  intros Hk. named Hk.
  destruct (store_string v (Project_Description p)); cbn; [|done]. by intros [= <-].
Qed.

Lemma set_project_keeps_description key v p p' :
  names "description" key = false → set_project_field key v p = Some p' →
  Project_Description p' = Project_Description p.
Proof. intros Hk. unnamed Hk. Qed.

Lemma set_project_name key v p p' :
  names "name" key = true → set_project_field key v p = Some p' →
  store_string v (Project_Name p) = Some (Project_Name p').
Proof.
  intros Hk. named Hk.
  destruct (store_string v (Project_Name p)); cbn; [|done]. by intros [= <-].
Qed.

Lemma set_project_keeps_name key v p p' :
  names "name" key = false → set_project_field key v p = Some p' →
  Project_Name p' = Project_Name p.
Proof. intros Hk. unnamed Hk. Qed.

Lemma set_project_name_with_namespace key v p p' :
  names "name_with_namespace" key = true → set_project_field key v p = Some p' →
  store_string v (Project_NameWithNamespace p) = Some (Project_NameWithNamespace p').
Proof.
  intros Hk. named Hk.
  destruct (store_string v (Project_NameWithNamespace p)); cbn; [|done]. by intros [= <-].
Qed.

Lemma set_project_keeps_name_with_namespace key v p p' :
  names "name_with_namespace" key = false → set_project_field key v p = Some p' →
  Project_NameWithNamespace p' = Project_NameWithNamespace p.
Proof. intros Hk. unnamed Hk. Qed.

Lemma set_project_path key v p p' :
  names "path" key = true → set_project_field key v p = Some p' →
  store_string v (Project_Path p) = Some (Project_Path p').
Proof.
  intros Hk. named Hk.
  destruct (store_string v (Project_Path p)); cbn; [|done]. by intros [= <-].
Qed.

Lemma set_project_keeps_path key v p p' :
  names "path" key = false → set_project_field key v p = Some p' →
  Project_Path p' = Project_Path p.
Proof. intros Hk. unnamed Hk. Qed.

Lemma set_project_path_with_namespace key v p p' :
  names "path_with_namespace" key = true → set_project_field key v p = Some p' →
  store_string v (Project_PathWithNamespace p) = Some (Project_PathWithNamespace p').
Proof.
  intros Hk. named Hk.
  destruct (store_string v (Project_PathWithNamespace p)); cbn; [|done]. by intros [= <-].
Qed.

Lemma set_project_keeps_path_with_namespace key v p p' :
  names "path_with_namespace" key = false → set_project_field key v p = Some p' →
  Project_PathWithNamespace p' = Project_PathWithNamespace p.
Proof. intros Hk. unnamed Hk. Qed.

Lemma set_project_created_at key v p p' :
  names "created_at" key = true → set_project_field key v p = Some p' →
  (λ v (_ : option Time), store_time v) v (Project_CreatedAt p)
  = Some (Project_CreatedAt p').
Proof.
  intros Hk. named Hk.
  destruct (store_time v); cbn; [|done]. by intros [= <-].
Qed.

Lemma store_int_number lit old n :
  store_int (JSON.Number lit) old = Some n →
  Go.Atoi lit = Some n ∧ fits_int n = true.
Proof.
  cbn [store_int]. destruct (Go.Atoi lit) as [k|]; cbn; [|done].
  destruct (fits_int k) eqn:Hk; [|done]. by intros [= <-].
Qed.

Lemma store_int_fails v a b : store_int v a = None → store_int v b = None.
Proof.
  destruct v; cbn [store_int]; done.
Qed.

Lemma store_string_fails v a b :
  store_string v a = None → store_string v b = None.
Proof. by destruct v. Qed.

Lemma store_time_value v (x : option Time) :
  v ≠ JSON.Null → store_time v = Some x →
  ∃ t, Time_UnmarshalJSON v = Some t ∧ x = Some t.
Proof.
  intros Hv. unfold store_time.
  destruct v; try done;
    (destruct (Time_UnmarshalJSON _) as [t|]; cbn; [|done];
     intros [= <-]; by exists t).
Qed.

(** X3. The fields of a decoded move are those of the body: for each
    field, the last member that names it decides.  An integer numeral
    gives the [ID], which fits Go's [int]; a string gives [State],
    [SourceStorageName] and [DestinationStorageName] as it is; a value
    that is not [null] gives a [CreatedAt] that points to the time
    [UnmarshalJSON] reads in it; an object gives the [Project] it
    decodes to, starting from the project decoded so far. *)
Theorem move_fields_decoded :
  (∀ before key lit after old m,
      names "id" key = true → absent "id" after →
      store_move (JSON.Object (before ++ (key, JSON.Number lit) :: after))
        old = Some m →
      Go.Atoi lit = Some (ID m) ∧ fits_int (ID m) = true)
  ∧ (∀ before key s after old m,
        names "state" key = true → absent "state" after →
        store_move (JSON.Object (before ++ (key, JSON.Str s) :: after)) old
        = Some m →
        State m = s)
  ∧ (∀ before key s after old m,
        names "source_storage_name" key = true → absent "source_storage_name" after →
        store_move (JSON.Object (before ++ (key, JSON.Str s) :: after)) old
        = Some m →
        SourceStorageName m = s)
  ∧ (∀ before key s after old m,
        names "destination_storage_name" key = true → absent "destination_storage_name" after →
        store_move (JSON.Object (before ++ (key, JSON.Str s) :: after)) old
        = Some m →
        DestinationStorageName m = s)
  ∧ (∀ before key v after old m,
        names "created_at" key = true → absent "created_at" after →
        v ≠ JSON.Null →
        store_move (JSON.Object (before ++ (key, v) :: after)) old
        = Some m →
        ∃ t, Time_UnmarshalJSON v = Some t ∧ CreatedAt m = Some t)
  ∧ (∀ before key members after old m,
        names "project" key = true → absent "project" after →
        store_move
          (JSON.Object (before ++ (key, JSON.Object members) :: after)) old
        = Some m →
        ∃ m1, store_move (JSON.Object before) old = Some m1
              ∧ store_project (JSON.Object members) (Project m1)
                = Some (Project m)).
Proof.
  repeat match goal with |- _ ∧ _ => split end.
  - intros before key lit after old m Hk Hafter Hm.
    destruct (store_members_last set_move_field ID store_int "id"
                set_move_id set_move_keeps_id _ _ _ _ _ _ Hk Hafter Hm)
      as (m1 & _ & H).
    by apply store_int_number in H.
  - intros before key s after old m Hk Hafter Hm.
    destruct (store_members_last set_move_field State store_string "state"
                set_move_state set_move_keeps_state _ _ _ _ _ _
                Hk Hafter Hm) as (m1 & _ & H).
    by injection H.
  - intros before key s after old m Hk Hafter Hm.
    destruct (store_members_last set_move_field SourceStorageName
                store_string "source_storage_name"
                set_move_source set_move_keeps_source _ _ _ _ _ _
                Hk Hafter Hm) as (m1 & _ & H).
    by injection H.
  - intros before key s after old m Hk Hafter Hm.
    destruct (store_members_last set_move_field DestinationStorageName
                store_string "destination_storage_name"
                set_move_destination set_move_keeps_destination
                _ _ _ _ _ _ Hk Hafter Hm) as (m1 & _ & H).
    by injection H.
  - intros before key v after old m Hk Hafter Hv Hm.
    destruct (store_members_last set_move_field CreatedAt
                (λ v (_ : option Time), store_time v) "created_at"
                set_move_created_at set_move_field_other _ _ _ _ _ _
                Hk Hafter Hm) as (m1 & _ & H).
    by apply store_time_value in H.
  - intros before key members after old m Hk Hafter Hm.
    destruct (store_members_last set_move_field Project store_project
                "project" set_move_field_project
                set_move_field_not_project _ _ _ _ _ _ Hk Hafter Hm)
      as (m1 & H1 & H).
    by exists m1.
Qed.

(** X4. The fields of the project of a move come from the object under
    [project] in the same way: an integer numeral gives its [ID], a
    string each of its five texts, a value that is not [null] its
    [CreatedAt]. *)
Theorem project_fields_decoded :
  (∀ before key lit after old p,
      names "id" key = true → absent "id" after →
      store_project (JSON.Object (before ++ (key, JSON.Number lit) :: after))
        old = Some p →
      Go.Atoi lit = Some (Project_ID p) ∧ fits_int (Project_ID p) = true)
  ∧ (∀ before key s after old p,
        names "description" key = true → absent "description" after →
        store_project (JSON.Object (before ++ (key, JSON.Str s) :: after))
          old = Some p →
        Project_Description p = s)
  ∧ (∀ before key s after old p,
        names "name" key = true → absent "name" after →
        store_project (JSON.Object (before ++ (key, JSON.Str s) :: after))
          old = Some p →
        Project_Name p = s)
  ∧ (∀ before key s after old p,
        names "name_with_namespace" key = true → absent "name_with_namespace" after →
        store_project (JSON.Object (before ++ (key, JSON.Str s) :: after))
          old = Some p →
        Project_NameWithNamespace p = s)
  ∧ (∀ before key s after old p,
        names "path" key = true → absent "path" after →
        store_project (JSON.Object (before ++ (key, JSON.Str s) :: after))
          old = Some p →
        Project_Path p = s)
  ∧ (∀ before key s after old p,
        names "path_with_namespace" key = true → absent "path_with_namespace" after →
        store_project (JSON.Object (before ++ (key, JSON.Str s) :: after))
          old = Some p →
        Project_PathWithNamespace p = s)
  ∧ (∀ before key v after old p,
        names "created_at" key = true → absent "created_at" after →
        v ≠ JSON.Null →
        store_project (JSON.Object (before ++ (key, v) :: after)) old
        = Some p →
        ∃ t, Time_UnmarshalJSON v = Some t ∧ Project_CreatedAt p = Some t).
Proof.
  repeat match goal with |- _ ∧ _ => split end.
  - intros before key lit after old p Hk Hafter Hp.
    destruct (store_members_last set_project_field Project_ID store_int
                "id" set_project_id set_project_keeps_id _ _ _ _ _ _
                Hk Hafter Hp) as (p1 & _ & H).
    by apply store_int_number in H.
  - intros before key s after old p Hk Hafter Hp.
    destruct (store_members_last set_project_field Project_Description store_string
                "description" set_project_description set_project_keeps_description
                _ _ _ _ _ _ Hk Hafter Hp) as (p1 & _ & H).
    by injection H.
  - intros before key s after old p Hk Hafter Hp.
    destruct (store_members_last set_project_field Project_Name store_string
                "name" set_project_name set_project_keeps_name
                _ _ _ _ _ _ Hk Hafter Hp) as (p1 & _ & H).
    by injection H.
  - intros before key s after old p Hk Hafter Hp.
    destruct (store_members_last set_project_field Project_NameWithNamespace store_string
                "name_with_namespace" set_project_name_with_namespace set_project_keeps_name_with_namespace
                _ _ _ _ _ _ Hk Hafter Hp) as (p1 & _ & H).
    by injection H.
  - intros before key s after old p Hk Hafter Hp.
    destruct (store_members_last set_project_field Project_Path store_string
                "path" set_project_path set_project_keeps_path
                _ _ _ _ _ _ Hk Hafter Hp) as (p1 & _ & H).
    by injection H.
  - intros before key s after old p Hk Hafter Hp.
    destruct (store_members_last set_project_field Project_PathWithNamespace store_string
                "path_with_namespace" set_project_path_with_namespace set_project_keeps_path_with_namespace
                _ _ _ _ _ _ Hk Hafter Hp) as (p1 & _ & H).
    by injection H.
  - intros before key v after old p Hk Hafter Hv Hp.
    destruct (store_members_last set_project_field Project_CreatedAt
                (λ v (_ : option Time), store_time v) "created_at"
                set_project_created_at set_project_field_other
                _ _ _ _ _ _ Hk Hafter Hp) as (p1 & _ & H).
    by apply store_time_value in H.
Qed.

Lemma absent_keep {A B : Type}
    (set : string → JSON.value → A → option A) (get : A → B) (tag : string)
    (members : list (string * JSON.value)) (a a' : A) :
  (∀ key v x x', names tag key = false → set key v x = Some x' →
                 get x' = get x) →
  absent tag members →
  store_members set members a = Some a' → get a' = get a.
Proof.
  intros Hother Habsent. apply store_members_keep.
  eapply Forall_impl; [exact Habsent|].
  intros [k v] Hkv x x'. by apply Hother.
Qed.

(** X5. A field that the body does not mention keeps the value it had:
    decoding changes only the fields that are named.  Decoded into a new
    struct, as the methods do, such a field is zero. *)
Theorem absent_fields_kept members old m :
  store_move (JSON.Object members) old = Some m →
  (absent "id" members → ID m = ID old)
  ∧ (absent "created_at" members → CreatedAt m = CreatedAt old)
  ∧ (absent "state" members → State m = State old)
  ∧ (absent "source_storage_name" members →
     SourceStorageName m = SourceStorageName old)
  ∧ (absent "destination_storage_name" members →
     DestinationStorageName m = DestinationStorageName old)
  ∧ (absent "project" members → Project m = Project old)
  ∧ (Forall (λ tag, absent tag members) move_tags → m = old).
Proof.
  cbn [store_move]. intros Hm.
  assert (Hid : absent "id" members → ID m = ID old).
  { intros H. by eapply absent_keep; [apply set_move_keeps_id|..]. }
  assert (Hc : absent "created_at" members → CreatedAt m = CreatedAt old).
  { intros H. by eapply absent_keep; [apply set_move_field_other|..]. }
  assert (Hs : absent "state" members → State m = State old).
  { intros H. by eapply absent_keep; [apply set_move_keeps_state|..]. }
  assert (Hsrc : absent "source_storage_name" members →
                 SourceStorageName m = SourceStorageName old).
  { intros H. by eapply absent_keep; [apply set_move_keeps_source|..]. }
  assert (Hdst : absent "destination_storage_name" members →
                 DestinationStorageName m = DestinationStorageName old).
  { intros H. by eapply absent_keep; [apply set_move_keeps_destination|..]. }
  assert (Hp : absent "project" members → Project m = Project old).
  { intros H. by eapply absent_keep; [apply set_move_field_not_project|..]. }
  repeat match goal with |- _ ∧ _ => split end; try assumption.
  unfold move_tags. intros Hall.
  repeat match goal with
    | H : Forall _ (_ :: _) |- _ => apply Forall_cons in H as [? H]
    end.
  destruct m, old; cbn in *. f_equal; auto.
Qed.


(** X7. A value of the wrong type fails the decoding of the whole body,
    wherever the member stands: for [id], anything but [null] and an
    integer numeral that fits Go's [int]; for [state], anything but
    [null] and a string; for [created_at], a value other than [null]
    that [UnmarshalJSON] refuses. *)
Theorem ill_typed_member_fails before key v after old :
  (names "id" key = true → store_int v 0 = None →
   store_move (JSON.Object (before ++ (key, v) :: after)) old = None)
  ∧ (names "state" key = true → store_string v "" = None →
     store_move (JSON.Object (before ++ (key, v) :: after)) old = None)
  ∧ (names "created_at" key = true →
     v ≠ JSON.Null → Time_UnmarshalJSON v = None →
     store_move (JSON.Object (before ++ (key, v) :: after)) old = None).
Proof.
  repeat match goal with |- _ ∧ _ => split end.
  - intros Hk Hv. cbn [store_move]. apply store_members_fail. intros a.
    named Hk. by rewrite (store_int_fails v 0 (ID a) Hv).
  - intros Hk Hv. cbn [store_move]. apply store_members_fail. intros a.
    named Hk. by rewrite (store_string_fails v "" (State a) Hv).
  - intros Hk Hv Ht. cbn [store_move]. apply store_members_fail. intros a.
    named Hk. unfold store_time. rewrite Ht. by destruct v.
Qed.

End DecodeMore.

(** ** Decoding sequences of moves *)

Section DecodeSequences.

Context {T : GoTime}.

(** X8. Decoding an array into a [[]*ProjectRepositoryStorageMove]
    gives one element per item, in order: nil for [null], and for any
    other item the address of a cell holding the move the item decodes
    to.  These cells are new and pairwise distinct, and the cells that
    existed before are unchanged. *)
Theorem elements_decoded (items : list JSON.value) (h h' : Heap)
    (ps : list (option loc)) :
  store_elements items h = Some (ps, h') →
  length ps = length items
  ∧ h ⊆ h'
  ∧ NoDup (omap id ps)
  ∧ (∀ l, Some l ∈ ps → h !! l = None)
  ∧ (∀ i v, items !! i = Some v →
       match v with
       | JSON.Null => ps !! i = Some None
       | _ => ∃ l m, ps !! i = Some (Some l) ∧ h' !! l = Some m
                     ∧ store_move v zero_ProjectRepositoryStorageMove
                       = Some m
       end).
Proof.
  revert h h' ps. induction items as [|v items IH]; intros h h' ps.
  - cbn. intros [= <- <-]. repeat split; try done.
    + constructor.
    + by intros l ?%elem_of_nil.
  - assert (Hcell :
      ∀ m, store_move v zero_ProjectRepositoryStorageMove = Some m →
           v ≠ JSON.Null →
           (∃ ps1, store_elements items
                     (<[fresh (dom h) := m]>
                        (<[fresh (dom h)
                           := zero_ProjectRepositoryStorageMove]> h))
                   = Some (ps1, h') ∧ ps = Some (fresh (dom h)) :: ps1) →
           length ps = length (v :: items)
           ∧ h ⊆ h'
           ∧ NoDup (omap id ps)
           ∧ (∀ l, Some l ∈ ps → h !! l = None)
           ∧ (∀ i w, (v :: items) !! i = Some w →
                match w with
                | JSON.Null => ps !! i = Some None
                | _ => ∃ l m, ps !! i = Some (Some l) ∧ h' !! l = Some m
                              ∧ store_move w zero_ProjectRepositoryStorageMove
                                = Some m
                end)).
    { intros m Hm Hv (ps1 & Hrest & ->).
      set (l := fresh (dom h)) in *.
      assert (Hl : h !! l = None)
        by apply (proj1 (not_elem_of_dom h l)), is_fresh.
      rewrite insert_insert_eq in Hrest.
      destruct (IH _ _ _ Hrest) as (Hlen & Hsub & Hnd & Hfresh & Hcells).
      assert (Hh : h ⊆ <[l := m]> h) by by apply insert_subseteq.
      assert (Hl' : h' !! l = Some m).
      { eapply lookup_weaken; [apply lookup_insert_eq|exact Hsub]. }
      split; [cbn; by rewrite Hlen|].
      split; [by etrans|].
      split.
      { cbn. apply NoDup_cons. split; [|done].
        intros Hin. apply list_elem_of_omap in Hin as (x & Hx & Hid).
        cbn in Hid. subst x. apply Hfresh in Hx.
        by rewrite lookup_insert_eq in Hx. }
      split.
      { intros l0 Hin. apply elem_of_cons in Hin as [[= ->]|Hin]; [done|].
        apply Hfresh in Hin. by apply lookup_insert_None in Hin as [? _]. }
      intros [|i] w Hw.
      - cbn in Hw. injection Hw as <-.
        destruct v; try done; by exists l, m.
      - cbn in Hw. apply (Hcells i w Hw). }
    destruct v as [|b|lit|s|its|ms]; cbn [store_elements alloc].
    { clear Hcell.
      destruct (store_elements items h) as [[ps1 h1]|] eqn:Hrest;
        cbn [mbind option_bind]; [|done].
      intros [= <- <-].
      destruct (IH _ _ _ Hrest) as (Hlen & Hsub & Hnd & Hfresh & Hcells).
      split; [cbn; by rewrite Hlen|]. split; [done|]. split; [done|].
      split.
      { intros l Hin. apply elem_of_cons in Hin as [[=]|Hin].
        by apply Hfresh. }
      intros [|i] w Hw.
      + cbn in Hw. by injection Hw as <-.
      + cbn in Hw. apply (Hcells i w Hw). }
    all: destruct (store_move _ zero_ProjectRepositoryStorageMove)
           as [m|] eqn:Hm; cbn [mbind option_bind]; [|done].
    all: destruct (store_elements items _) as [[ps1 h1]|] eqn:Hrest;
           cbn [mbind option_bind]; [|done].
    all: intros [= <- <-]; apply (Hcell m eq_refl); [done|by exists ps1].
Qed.

End DecodeSequences.

(** ** Concrete runs of the theorems *)

#[local] Existing Instance text_time.

(** [GetStorageMove(999999)]: with a failing modifier the method returns
    the modifier's error and sends nothing; on a 404 answer it returns the
    response with the status error; when the server cannot be reached it
    returns the transport error and no response. *)
Lemma failure_propagation_witness :
  (value (call (T := text_time) (C := spec_client) (OpGetStorageMove 999999)
            [failing_modifier] (run_state (answering 404 not_found_body)))
   = (Move None, None, Some (ErrInvalidRequest "invalid header value")))
  ∧ (value (call (T := text_time) (C := spec_client) (OpGetStorageMove 999999)
              [] (run_state (answering 404 not_found_body)))
     = (Move None,
        Some {| resp_status := 404; resp_body := not_found_body |},
        Some (ErrAPIStatus 404
                (inl (JSON.Object [("message", JSON.Str "404 Not Found")])))))
  ∧ (value (call (T := text_time) (C := spec_client) (OpGetStorageMove 999999)
              [] (run_state unreachable))
     = (Move None, None, Some ErrTransport))
  ∧ (sent (world (final (call (T := text_time) (C := spec_client)
                           (OpGetStorageMove 999999)
                           ([with_header "Accept" "application/json"]
                            ++ failing_modifier :: [])
                           (run_state (answering 404 not_found_body)))))
     = []).
Proof.
  split; [|split; [|split]].
  - refine (proj1 (proj1 (failure_propagation (T := text_time)
              (C := spec_client) (OpGetStorageMove 999999) [failing_modifier]
              (run_state (answering 404 not_found_body)))
            "GET" "project_repository_storage_moves/999999" None
            [failing_modifier] None (ErrInvalidRequest "invalid header value")
            _)).
    apply list_elem_of_here.
  - refine (proj1 (proj1 (proj2 (failure_propagation (T := text_time)
              (C := spec_client) (OpGetStorageMove 999999) []
              (run_state (answering 404 not_found_body))))
            (Some (base_request "GET" "project_repository_storage_moves/999999"
                     None))
            (IntoStruct 1%positive)
            (Some {| resp_status := 404; resp_body := not_found_body |})
            (ErrAPIStatus 404
               (inl (JSON.Object [("message", JSON.Str "404 Not Found")])))
            _)).
    apply list_elem_of_further, list_elem_of_here.
  - refine (proj1 (proj1 (proj2 (failure_propagation (T := text_time)
              (C := spec_client) (OpGetStorageMove 999999) []
              (run_state unreachable)))
            (Some (base_request "GET" "project_repository_storage_moves/999999"
                     None))
            (IntoStruct 1%positive) None ErrTransport _)).
    apply list_elem_of_further, list_elem_of_here.
  - refine (proj2 (proj2 (proj2 (failure_propagation (T := text_time)
              (C := spec_client) (OpGetStorageMove 999999) []
              (run_state unreachable)))
            [with_header "Accept" "application/json"] [] failing_modifier
            (answering 404 not_found_body) ∅ _
            (ErrInvalidRequest "invalid header value") eq_refl eq_refl eq_refl)).
Defined.



(** A successful [GetStorageMove] returns the address of the cell it
    allocated, here the first of an empty heap; a List call answered with
    [null] returns the nil sequence, one answered with an empty array the
    empty sequence. *)
Lemma success_results_witness :
  (∃ l,
      (value (call (C := spec_client) (OpGetStorageMove 3) []
                (run_state (answering 200 null_created_at_body)))).1.1
      = Move (Some l)
      ∧ l ∉ dom (∅ : Heap))
  ∧ value (call (C := spec_client)
             (OpRetrieveAllStorageMoves {| Page := 0; Cursor := ""; PerPage := 0 |})
             [] (run_state (answering 200 "null")))
    = (Moves None, Some {| resp_status := 200; resp_body := "null" |}, None)
  ∧ value (call (C := spec_client)
             (OpRetrieveAllStorageMoves {| Page := 0; Cursor := ""; PerPage := 0 |})
             [] (run_state (answering 200 "[]")))
    = (Moves (Some []), Some {| resp_status := 200; resp_body := "[]" |}, None).
Proof.
  split; [|split].
  - destruct (proj1 (success_results (C := spec_client))
                (OpGetStorageMove 3) []
                (run_state (answering 200 null_created_at_body))
                eq_refl eq_refl)
      as (l & Hl & Hfresh & _).
    exists l. split; [exact Hl|exact Hfresh].
  - exact (proj1 (proj2 (success_results (C := spec_client))
                    (OpRetrieveAllStorageMoves
                       {| Page := 0; Cursor := ""; PerPage := 0 |})
                    [] (answering 200 "null") ∅
                    (base_request "GET" "project_repository_storage_moves"
                       (Some {| Page := 0; Cursor := ""; PerPage := 0 |}))
                    200 "null" JSON.Null
                    eq_refl eq_refl eq_refl eq_refl eq_refl eq_refl eq_refl)
             eq_refl).
  - exact (proj2 (proj2 (success_results (C := spec_client))
                    (OpRetrieveAllStorageMoves
                       {| Page := 0; Cursor := ""; PerPage := 0 |})
                    [] (answering 200 "[]") ∅
                    (base_request "GET" "project_repository_storage_moves"
                       (Some {| Page := 0; Cursor := ""; PerPage := 0 |}))
                    200 "[]" (JSON.Array [])
                    eq_refl eq_refl eq_refl eq_refl eq_refl eq_refl eq_refl)
             eq_refl).
Defined.

(** [ScheduleStorageMoveForProject(7)] with a modifier that adds a header:
    the request, with no payload, is built, dispatched and sent. *)
Lemma schedule_without_body_witness :
  let r :=
    {| req_method := "POST";
       req_path := "projects/7/repository_storage_moves";
       req_query := []; req_payload := None;
       req_headers := [("Accept", "application/json")];
       req_cancelled := false |} in
  let res :=
    call (C := spec_client) (OpScheduleStorageMoveForProject 7)
      [with_header "Accept" "application/json"]
      (run_state (answering 200 "[]")) in
  (∃ ret,
      trace res
      = [EvNewRequest (C := spec_client) "POST"
           "projects/7/repository_storage_moves" None
           [with_header "Accept" "application/json"] (Some r, None);
         EvDo (C := spec_client) (Some r) IntoSlice ret])
  ∧ sent (world (final res)) = [r].
Proof.
  cbv zeta.
  destruct (proj2 (proj2 (schedule_without_body (C := spec_client)))
              (OpScheduleStorageMoveForProject 7)
              [with_header "Accept" "application/json"]
              (answering 200 "[]") ∅
              {| req_method := "POST";
                 req_path := "projects/7/repository_storage_moves";
                 req_query := []; req_payload := None;
                 req_headers := [("Accept", "application/json")];
                 req_cancelled := false |}
              eq_refl eq_refl eq_refl)
    as (_ & _ & Htrace & Hsent).
  split; [exact Htrace|exact (Hsent eq_refl)].
Defined.


(** The body with both [created_at] set to [null] decodes, and both
    pointers are nil. *)
Lemma null_created_at_is_absent_witness :
  ∃ m : ProjectRepositoryStorageMove,
    (v ← JSON.parse null_created_at_body;
     store_move v zero_ProjectRepositoryStorageMove) = Some m
    ∧ ID m = 3
    ∧ CreatedAt m = None
    ∧ Project_CreatedAt (Project m) = None.
Proof.
  pose (pm := [("id", JSON.Number "7"); ("created_at", JSON.Null)]).
  pose (m :=
    {| ID := 3; CreatedAt := None; State := "started";
       SourceStorageName := ""; DestinationStorageName := "";
       Project :=
         {| Project_ID := 7; Project_Description := ""; Project_Name := "";
            Project_NameWithNamespace := ""; Project_Path := "";
            Project_PathWithNamespace := ""; Project_CreatedAt := None |} |}).
  exists m. split; [vm_compute; reflexivity|]. split; [reflexivity|]. split.
  - apply (proj1 (proj1 null_created_at_is_absent
                    [("id", JSON.Number "3")] "created_at"
                    [("state", JSON.Str "started"); ("project", JSON.Object pm)]
                    zero_ProjectRepositoryStorageMove m eq_refl
                    ltac:(repeat constructor) eq_refl)).
  - apply (proj1 (proj2 null_created_at_is_absent
                    [("id", JSON.Number "3"); ("created_at", JSON.Null);
                     ("state", JSON.Str "started")]
                    "project" [] [("id", JSON.Number "7")] "created_at" []
                    zero_ProjectRepositoryStorageMove m eq_refl
                    ltac:(repeat constructor) eq_refl
                    ltac:(repeat constructor) eq_refl)).
Defined.

(** ** Concrete runs of the further properties *)

(** [GetStorageMoveForProject(-5, 0)]: the path handed to the builder is
    well segmented. *)
Lemma paths_well_segmented_witness :
  well_segmented "projects/-5/repository_storage_moves/0" = true.
Proof.
  refine (paths_well_segmented (C := spec_client)
            (OpGetStorageMoveForProject (-5) 0) []
            (run_state (answering 200 "null"))
            "GET" "projects/-5/repository_storage_moves/0" None []
            (Some (base_request "GET" "projects/-5/repository_storage_moves/0"
                     None), None) _).
  apply list_elem_of_here.
Defined.

(** Listing the moves of project 7, once with a page size against a server
    that answers and once without against one that cannot be reached: the
    request line is the same, and so are the method and the integers. *)
Lemma request_line_routes_witness :
  let op := OpRetrieveAllStorageMovesForProject 7
              {| Page := 0; Cursor := ""; PerPage := 20 |} in
  let op' := OpRetrieveAllStorageMovesForProject 7
               {| Page := 0; Cursor := ""; PerPage := 0 |} in
  route "GET" "projects/7/repository_storage_moves"
  = Some (NameRetrieveAllStorageMovesForProject, [7])
  ∧ name_of op = name_of op' ∧ identifiers op = identifiers op'.
Proof.
  cbv zeta.
  pose (o := {| Page := 0; Cursor := ""; PerPage := 20 |}).
  pose (o' := {| Page := 0; Cursor := ""; PerPage := 0 |}).
  split.
  - destruct (proj1 (request_line_routes (C := spec_client)
                       (OpRetrieveAllStorageMovesForProject 7 o) []
                       (run_state (answering 200 "[]"))))
      as (_ & _ & _ & Hroute).
    exact Hroute.
  - exact (proj2 (request_line_routes (C := spec_client)
                    (OpRetrieveAllStorageMovesForProject 7 o) []
                    (run_state (answering 200 "[]")))
             (OpRetrieveAllStorageMovesForProject 7 o') []
             (run_state unreachable)
             "GET" "projects/7/repository_storage_moves" (Some o) (Some o')
             (Some (base_request "GET" "projects/7/repository_storage_moves"
                      (Some o)), None)
             (Some (base_request "GET" "projects/7/repository_storage_moves"
                      (Some o')), None)
             [EvDo (C := spec_client)
                (Some (base_request "GET"
                         "projects/7/repository_storage_moves" (Some o)))
                IntoSlice
                (Some {| resp_status := 200; resp_body := "[]" |}, None)]
             [EvDo (C := spec_client)
                (Some (base_request "GET"
                         "projects/7/repository_storage_moves" (Some o')))
                IntoSlice (None, Some ErrTransport)]
             eq_refl eq_refl).
Defined.

(** The move of the scheduling scenario, with a timestamp added: every
    field is the one of the body. *)
Lemma move_fields_decoded_witness :
  let project :=
    JSON.Object [("id", JSON.Number "7"); ("name", JSON.Str "demo")] in
  let members :=
    [("id", JSON.Number "1");
     ("created_at", JSON.Str "2023-01-02T03:04:05Z");
     ("state", JSON.Str "scheduled");
     ("source_storage_name", JSON.Str "default");
     ("destination_storage_name", JSON.Str "nfs-02");
     ("project", project)] in
  ∃ m, store_move (T := text_time) (JSON.Object members)
         zero_ProjectRepositoryStorageMove = Some m
       ∧ Go.Atoi "1" = Some (ID m)
       ∧ State m = "scheduled"
       ∧ SourceStorageName m = "default"
       ∧ DestinationStorageName m = "nfs-02"
       ∧ CreatedAt m = Some "2023-01-02T03:04:05Z"
       ∧ store_project project zero_ProjectSummary = Some (Project m).
Proof.
  cbv zeta.
  pose (project :=
    JSON.Object [("id", JSON.Number "7"); ("name", JSON.Str "demo")]).
  pose (m :=
    {| ID := 1; CreatedAt := Some "2023-01-02T03:04:05Z";
       State := "scheduled"; SourceStorageName := "default";
       DestinationStorageName := "nfs-02";
       Project :=
         {| Project_ID := 7; Project_Description := "";
            Project_Name := "demo"; Project_NameWithNamespace := "";
            Project_Path := ""; Project_PathWithNamespace := "";
            Project_CreatedAt := None |} |}
    : ProjectRepositoryStorageMove (T := text_time)).
  assert (Hm : store_move (T := text_time)
                 (JSON.Object
                    [("id", JSON.Number "1");
                     ("created_at", JSON.Str "2023-01-02T03:04:05Z");
                     ("state", JSON.Str "scheduled");
                     ("source_storage_name", JSON.Str "default");
                     ("destination_storage_name", JSON.Str "nfs-02");
                     ("project", project)])
                 zero_ProjectRepositoryStorageMove = Some m)
    by (vm_compute; reflexivity).
  destruct (move_fields_decoded (T := text_time))
    as (Hid & Hstate & Hsource & Hdestination & Hcreated & Hproject).
  pose (f_id := ("id", JSON.Number "1")).
  pose (f_created := ("created_at", JSON.Str "2023-01-02T03:04:05Z")).
  pose (f_state := ("state", JSON.Str "scheduled")).
  pose (f_source := ("source_storage_name", JSON.Str "default")).
  pose (f_destination := ("destination_storage_name", JSON.Str "nfs-02")).
  pose (f_project := ("project", project)).
  exists m. split; [exact Hm|].
  split.
  { exact (proj1 (Hid [] "id" "1"
                    [f_created; f_state; f_source; f_destination; f_project]
                    zero_ProjectRepositoryStorageMove m
                    eq_refl ltac:(repeat constructor) Hm)). }
  split.
  { exact (Hstate [f_id; f_created] "state" "scheduled"
             [f_source; f_destination; f_project]
             zero_ProjectRepositoryStorageMove m
             eq_refl ltac:(repeat constructor) Hm). }
  split.
  { exact (Hsource [f_id; f_created; f_state] "source_storage_name" "default"
             [f_destination; f_project]
             zero_ProjectRepositoryStorageMove m
             eq_refl ltac:(repeat constructor) Hm). }
  split.
  { exact (Hdestination [f_id; f_created; f_state; f_source]
             "destination_storage_name" "nfs-02" [f_project]
             zero_ProjectRepositoryStorageMove m
             eq_refl ltac:(repeat constructor) Hm). }
  split.
  { destruct (Hcreated [f_id] "created_at"
                (JSON.Str "2023-01-02T03:04:05Z")
                [f_state; f_source; f_destination; f_project]
                zero_ProjectRepositoryStorageMove m
                eq_refl ltac:(repeat constructor) ltac:(discriminate) Hm)
      as (t & Ht & Hc).
    cbn in Ht. injection Ht as <-. exact Hc. }
  destruct (Hproject [f_id; f_created; f_state; f_source; f_destination]
              "project"
              [("id", JSON.Number "7"); ("name", JSON.Str "demo")] []
              zero_ProjectRepositoryStorageMove m
              eq_refl ltac:(repeat constructor) Hm)
    as (m1 & Hm1 & Hp).
  vm_compute in Hm1. injection Hm1 as <-. exact Hp.
Defined.

(** The project of a move, read from an object with all its fields. *)
Lemma project_fields_decoded_witness :
  let f_id := ("id", JSON.Number "7") in
  let f_description := ("description", JSON.Str "a demo") in
  let f_name := ("name", JSON.Str "demo") in
  let f_full := ("name_with_namespace", JSON.Str "Group / demo") in
  let f_path := ("path", JSON.Str "demo") in
  let f_full_path := ("path_with_namespace", JSON.Str "group/demo") in
  let f_created := ("created_at", JSON.Str "2020-05-06T07:08:09Z") in
  ∃ p, store_project (T := text_time)
         (JSON.Object
            [f_id; f_description; f_name; f_full; f_path; f_full_path;
             f_created])
         zero_ProjectSummary = Some p
       ∧ Go.Atoi "7" = Some (Project_ID p)
       ∧ Project_Description p = "a demo"
       ∧ Project_Name p = "demo"
       ∧ Project_NameWithNamespace p = "Group / demo"
       ∧ Project_Path p = "demo"
       ∧ Project_PathWithNamespace p = "group/demo"
       ∧ Project_CreatedAt p = Some "2020-05-06T07:08:09Z".
Proof.
  cbv zeta.
  pose (f_id := ("id", JSON.Number "7")).
  pose (f_description := ("description", JSON.Str "a demo")).
  pose (f_name := ("name", JSON.Str "demo")).
  pose (f_full := ("name_with_namespace", JSON.Str "Group / demo")).
  pose (f_path := ("path", JSON.Str "demo")).
  pose (f_full_path := ("path_with_namespace", JSON.Str "group/demo")).
  pose (f_created := ("created_at", JSON.Str "2020-05-06T07:08:09Z")).
  pose (p :=
    {| Project_ID := 7; Project_Description := "a demo";
       Project_Name := "demo"; Project_NameWithNamespace := "Group / demo";
       Project_Path := "demo"; Project_PathWithNamespace := "group/demo";
       Project_CreatedAt := Some "2020-05-06T07:08:09Z" |}
    : ProjectSummary (T := text_time)).
  assert (Hp : store_project (T := text_time)
                 (JSON.Object
                    [f_id; f_description; f_name; f_full; f_path;
                     f_full_path; f_created])
                 zero_ProjectSummary = Some p)
    by (vm_compute; reflexivity).
  destruct (project_fields_decoded (T := text_time))
    as (Hid & Hdescription & Hname & Hfull & Hpath & Hfull_path & Hcreated).
  exists p. split; [exact Hp|].
  split.
  { exact (proj1 (Hid [] "id" "7"
                    [f_description; f_name; f_full; f_path; f_full_path;
                     f_created]
                    zero_ProjectSummary p eq_refl
                    ltac:(repeat constructor) Hp)). }
  split.
  { exact (Hdescription [f_id] "description" "a demo"
             [f_name; f_full; f_path; f_full_path; f_created]
             zero_ProjectSummary p eq_refl ltac:(repeat constructor) Hp). }
  split.
  { exact (Hname [f_id; f_description] "name" "demo"
             [f_full; f_path; f_full_path; f_created]
             zero_ProjectSummary p eq_refl ltac:(repeat constructor) Hp). }
  split.
  { exact (Hfull [f_id; f_description; f_name] "name_with_namespace"
             "Group / demo" [f_path; f_full_path; f_created]
             zero_ProjectSummary p eq_refl ltac:(repeat constructor) Hp). }
  split.
  { exact (Hpath [f_id; f_description; f_name; f_full] "path" "demo"
             [f_full_path; f_created]
             zero_ProjectSummary p eq_refl ltac:(repeat constructor) Hp). }
  split.
  { exact (Hfull_path [f_id; f_description; f_name; f_full; f_path]
             "path_with_namespace" "group/demo" [f_created]
             zero_ProjectSummary p eq_refl ltac:(repeat constructor) Hp). }
  destruct (Hcreated [f_id; f_description; f_name; f_full; f_path;
                      f_full_path]
              "created_at" (JSON.Str "2020-05-06T07:08:09Z") []
              zero_ProjectSummary p eq_refl ltac:(repeat constructor)
              ltac:(discriminate) Hp)
    as (t & Ht & Hc).
  cbn in Ht. injection Ht as <-. exact Hc.
Defined.

(** A body that gives only the [id]: the other fields of a new struct stay
    zero; and the empty object changes nothing at all. *)
Lemma absent_fields_kept_witness :
  ∃ m, store_move (T := text_time) (JSON.Object [("id", JSON.Number "3")])
         zero_ProjectRepositoryStorageMove = Some m
       ∧ ID m = 3
       ∧ State m = ""
       ∧ CreatedAt m = None
       ∧ Project m = zero_ProjectSummary
       ∧ store_move (T := text_time) (JSON.Object [])
           zero_ProjectRepositoryStorageMove
         = Some zero_ProjectRepositoryStorageMove.
Proof.
  pose (m :=
    {| ID := 3; CreatedAt := None; State := "";
       SourceStorageName := ""; DestinationStorageName := "";
       Project := zero_ProjectSummary |}
    : ProjectRepositoryStorageMove (T := text_time)).
  assert (Hm : store_move (T := text_time)
                 (JSON.Object [("id", JSON.Number "3")])
                 zero_ProjectRepositoryStorageMove = Some m)
    by (vm_compute; reflexivity).
  destruct (absent_fields_kept (T := text_time)
              [("id", JSON.Number "3")] zero_ProjectRepositoryStorageMove m Hm)
    as (_ & Hcreated & Hstate & _ & _ & Hproject & _).
  exists m. split; [exact Hm|]. split; [reflexivity|].
  split; [exact (Hstate ltac:(repeat constructor))|].
  split; [exact (Hcreated ltac:(repeat constructor))|].
  split; [exact (Hproject ltac:(repeat constructor))|].
  destruct (store_move (T := text_time) (JSON.Object [])
              zero_ProjectRepositoryStorageMove) as [m0|] eqn:H0;
    [|discriminate H0].
  destruct (absent_fields_kept (T := text_time) []
              zero_ProjectRepositoryStorageMove m0 H0)
    as (_ & _ & _ & _ & _ & _ & Hall).
  by rewrite (Hall ltac:(repeat constructor)).
Defined.


(** An [id] given as a string, as a fraction or beyond 64 bits, a [state]
    given as a number, and a [created_at] that is no string all fail. *)
Lemma ill_typed_member_fails_witness :
  store_move (T := text_time)
    (JSON.Object [("state", JSON.Str "started"); ("id", JSON.Str "3")])
    zero_ProjectRepositoryStorageMove = None
  ∧ store_move (T := text_time) (JSON.Object [("id", JSON.Number "1.5")])
      zero_ProjectRepositoryStorageMove = None
  ∧ store_move (T := text_time)
      (JSON.Object [("id", JSON.Number "9223372036854775808")])
      zero_ProjectRepositoryStorageMove = None
  ∧ store_move (T := text_time)
      (JSON.Object [("state", JSON.Number "1"); ("id", JSON.Number "3")])
      zero_ProjectRepositoryStorageMove = None
  ∧ store_move (T := text_time)
      (JSON.Object [("created_at", JSON.Number "1700000000")])
      zero_ProjectRepositoryStorageMove = None.
Proof.
  repeat match goal with |- _ ∧ _ => split end.
  - exact (proj1 (ill_typed_member_fails (T := text_time)
                    [("state", JSON.Str "started")] "id" (JSON.Str "3") []
                    zero_ProjectRepositoryStorageMove) eq_refl eq_refl).
  - exact (proj1 (ill_typed_member_fails (T := text_time)
                    [] "id" (JSON.Number "1.5") []
                    zero_ProjectRepositoryStorageMove) eq_refl eq_refl).
  - exact (proj1 (ill_typed_member_fails (T := text_time)
                    [] "id" (JSON.Number "9223372036854775808") []
                    zero_ProjectRepositoryStorageMove) eq_refl eq_refl).
  - exact (proj1 (proj2 (ill_typed_member_fails (T := text_time)
                    [] "state" (JSON.Number "1") [("id", JSON.Number "3")]
                    zero_ProjectRepositoryStorageMove)) eq_refl eq_refl).
  - exact (proj2 (proj2 (ill_typed_member_fails (T := text_time)
                    [] "created_at" (JSON.Number "1700000000") []
                    zero_ProjectRepositoryStorageMove))
             eq_refl ltac:(discriminate) eq_refl).
Defined.

(** An array of [null] and one move, decoded over an empty heap: a nil
    pointer, then the first cell, which holds the move. *)
Lemma elements_decoded_witness :
  ∃ (h' : Heap) m,
    store_elements [JSON.Null; JSON.Object [("id", JSON.Number "1")]] ∅
    = Some ([None; Some 1%positive], h')
    ∧ h' !! 1%positive = Some m
    ∧ store_move (JSON.Object [("id", JSON.Number "1")])
        zero_ProjectRepositoryStorageMove = Some m.
Proof.
  destruct (store_elements (T := text_time)
              [JSON.Null; JSON.Object [("id", JSON.Number "1")]] ∅)
    as [[ps h']|] eqn:Hrun; [|by vm_compute in Hrun].
  destruct (elements_decoded (T := text_time) _ _ _ _ Hrun)
    as (_ & _ & _ & _ & Hcells).
  pose proof (Hcells 0%nat JSON.Null eq_refl) as H0.
  destruct (Hcells 1%nat (JSON.Object [("id", JSON.Number "1")]) eq_refl)
    as (l & m & Hl & Hm & Hdec).
  assert (Hps : ps = [None; Some 1%positive]).
  { vm_compute in Hrun. by injection Hrun as <- _. }
  subst ps. cbn in Hl. injection Hl as <-.
  exists h', m. by repeat split.
Defined.
